(** * Product image generator: upload filter, provider clients and the
      generation routes

    A shallow embedding of the Express application of the repository
    (the 2.0.0 server with the Hugging Face and Replicate integration, and
    the older 1.0.0 [app.js]) together with the properties its design
    document states about upload validation, provider selection and
    fallback, and the shape of the responses.

    Conventions.
    - JavaScript values are the inductive [jsval]; [undefined] is a value.
    - Strings are byte strings; [toLowerCase] is modelled on ASCII letters.
    - A handler is a computation in the monad [M]: it threads the files on
      disk and the trace of outbound HTTP calls, and may throw.
    - Everything a handler reads from outside (environment variables,
      the clock, what a provider answers, whether the disk accepts a
      write) is a field of the record [World].
    - [console.log] and [console.error] have no effect on responses and
      are left out. *)

From stdpp Require Import base strings pretty gmap list.
From Stdlib Require Import ZArith Ascii String Lia.
From Stdlib.Strings Require Import Byte.

Open Scope string_scope.
Open Scope Z_scope.

(** ** JavaScript values *)

Module Js.

#[warnings="-register-all"]
Inductive jsval : Type :=
| JUndefined
| JNull
| JBool (b : bool)
| JNum (n : Z)
| JStr (s : string)
| JArr (items : list jsval)
| JObj (fields : list (string * jsval)).

(** ToBoolean.  Numbers are the integers that JSON can carry, so the only
    falsy number is zero. *)
Definition truthy (v : jsval) : bool :=
  match v with
  | JUndefined | JNull => false
  | JBool b => b
  | JNum n => negb (n =? 0)
  | JStr s => negb (String.eqb s "")
  | JArr _ | JObj _ => true
  end.

(** [a || b] *)
Definition or (a b : jsval) : jsval := if truthy a then a else b.

(** [v === 'literal'] *)
Definition strict_eq_str (v : jsval) (lit : string) : bool :=
  match v with
  | JStr s => String.eqb s lit
  | _ => false
  end.

(** Property read on an object literal: the first binding of the key, and
    [undefined] when there is none. *)
Fixpoint lookup_field (k : string) (fields : list (string * jsval)) : jsval :=
  match fields with
  | [] => JUndefined
  | (k', v) :: rest => if String.eqb k k' then v else lookup_field k rest
  end.

Definition get (k : string) (v : jsval) : jsval :=
  match v with
  | JObj fields => lookup_field k fields
  | _ => JUndefined
  end.

(** [v?.k] *)
Definition opt_get (k : string) (v : jsval) : jsval :=
  match v with
  | JUndefined | JNull => JUndefined
  | _ => get k v
  end.

(** A value is an absent or empty output location when it is [undefined],
    [null] or the empty string. *)
Definition nonempty_string (v : jsval) : bool :=
  match v with
  | JStr s => negb (String.eqb s "")
  | _ => false
  end.

End Js.
Import Js.

(** ** Strings: the parts of the runtime the upload filter uses *)

Module Str.

Definition is_upper (c : ascii) : bool :=
  let n := N_of_ascii c in ((65 <=? n) && (n <=? 90))%N.

Definition lower_char (c : ascii) : ascii :=
  if is_upper c then ascii_of_N (N_of_ascii c + 32) else c.

(** [String.prototype.toLowerCase], on ASCII. *)
Fixpoint toLowerCase (s : string) : string :=
  match s with
  | EmptyString => EmptyString
  | String c rest => String (lower_char c) (toLowerCase rest)
  end.

(** [p] is a prefix of [s]. *)
Fixpoint starts_with (p s : string) : bool :=
  match p, s with
  | EmptyString, _ => true
  | String _ _, EmptyString => false
  | String a p', String b s' => Ascii.eqb a b && starts_with p' s'
  end.

(** [s.slice(from, to)] for [0 <= from <= to]. *)
Definition slice (s : string) (from to : Z) : string :=
  String.substring (Z.to_nat from) (Z.to_nat (to - from)) s.

End Str.

(** ** Regular expressions without anchors

    The only patterns in the program are alternations of literal words.
    [test] is [RegExp.prototype.test] for a pattern without flags: the
    pattern may match anywhere in the subject. *)

Module Regex.

Inductive regex : Type :=
| Lit (word : string)
| Alt (r1 r2 : regex).

Fixpoint matches_at (r : regex) (s : string) : bool :=
  match r with
  | Lit w => Str.starts_with w s
  | Alt r1 r2 => matches_at r1 s || matches_at r2 s
  end.

Fixpoint test (r : regex) (s : string) : bool :=
  matches_at r s ||
  match s with
  | EmptyString => false
  | String _ rest => test r rest
  end.

Fixpoint words (r : regex) : list string :=
  match r with
  | Lit w => [w]
  | Alt r1 r2 => words r1 ++ words r2
  end.

End Regex.

(** ** [path.extname] and [path.join]

    The POSIX implementation of the runtime's [path] module, which is not
    part of the repository: [extname] scans the path from its end, with
    the five loop variables of the original. *)

Module Path.

Record scan : Type := Scan {
  startDot : Z;
  startPart : Z;
  end_ : Z;
  matchedSlash : bool;
  preDotState : Z
}.

Definition scan0 : scan := Scan (-1) 0 (-1) true 0.

Definition CHAR_FORWARD_SLASH : ascii := "/"%char.
Definition CHAR_DOT : ascii := "."%char.

(** The loop [for (i = path.length - 1; i >= 0; --i)]; [chars] holds the
    characters at indices [i], [i-1], ..., [0]. *)
Fixpoint extname_loop (chars : list ascii) (i : Z) (st : scan) : scan :=
  match chars with
  | [] => st
  | code :: rest =>
    if Ascii.eqb code CHAR_FORWARD_SLASH then
      if negb (matchedSlash st) then
        Scan (startDot st) (i + 1) (end_ st) (matchedSlash st) (preDotState st)
      else extname_loop rest (i - 1) st
    else
      let st1 :=
        if end_ st =? -1
        then Scan (startDot st) (startPart st) (i + 1) false (preDotState st)
        else st in
      let st2 :=
        if Ascii.eqb code CHAR_DOT then
          if startDot st1 =? -1
          then Scan i (startPart st1) (end_ st1) (matchedSlash st1) (preDotState st1)
          else if negb (preDotState st1 =? 1)
          then Scan (startDot st1) (startPart st1) (end_ st1) (matchedSlash st1) 1
          else st1
        else if negb (startDot st1 =? -1)
        then Scan (startDot st1) (startPart st1) (end_ st1) (matchedSlash st1) (-1)
        else st1 in
      extname_loop rest (i - 1) st2
  end.

Definition extname (path : string) : string :=
  let st := extname_loop (rev (list_ascii_of_string path))
                         (Z.of_nat (String.length path) - 1) scan0 in
  if (startDot st =? -1) || (end_ st =? -1) || (preDotState st =? 0) ||
     ((preDotState st =? 1) && (startDot st =? end_ st - 1)
                            && (startDot st =? startPart st + 1))
  then ""
  else Str.slice path (startDot st) (end_ st).

(** [path.join(dir, name)] for a directory and a file name that need no
    normalisation (no empty, [.] or [..] segment). *)
Definition join (dir name : string) : string := dir +:+ "/" +:+ name.

End Path.

(** ** Upload intake (multer configuration) *)

(** What multer knows of an incoming file part when it asks the filter
    and the storage engine. *)
Record FilePart : Type := {
  fieldname : string;
  originalname : string;
  mimetype : string
}.

(** An [Error] object: its message and, when set, its [status]. *)
Record Error : Type := mkError {
  message : string;
  err_status : option Z
}.

Definition new_Error (msg : string) : Error := mkError msg None.

(** Outcome of a node-style callback [cb(err, value)]. *)
Inductive callback (A : Type) : Type :=
| CbOk (value : A)
| CbErr (err : Error).
Arguments CbOk {A} value.
Arguments CbErr {A} err.

Module Upload.

(** [/jpeg|jpg|png|gif|webp/] of the 2.0.0 server. *)
Definition allowedTypes : Regex.regex :=
  Regex.Alt (Regex.Lit "jpeg")
    (Regex.Alt (Regex.Lit "jpg")
      (Regex.Alt (Regex.Lit "png")
        (Regex.Alt (Regex.Lit "gif") (Regex.Lit "webp")))).

(** [/jpeg|jpg|png|gif/] of [app.js]. *)
Definition allowedTypes_v1 : Regex.regex :=
  Regex.Alt (Regex.Lit "jpeg")
    (Regex.Alt (Regex.Lit "jpg")
      (Regex.Alt (Regex.Lit "png") (Regex.Lit "gif"))).

(** The [fileFilter] function, over the pattern of either server. *)
Definition fileFilter_with (allowed : Regex.regex) (file : FilePart)
  : callback bool :=
  let extname :=
    Regex.test allowed (Str.toLowerCase (Path.extname (originalname file))) in
  let mimetype := Regex.test allowed (mimetype file) in
  if mimetype && extname
  then CbOk true
  else CbErr (new_Error "Only image files are allowed!").

Definition fileFilter : FilePart -> callback bool := fileFilter_with allowedTypes.
Definition fileFilter_v1 : FilePart -> callback bool :=
  fileFilter_with allowedTypes_v1.

(** [limits.fileSize] *)
Definition fileSize_limit : Z := 10 * 1024 * 1024.

(** The storage engine's [destination] and [filename].  [now] is the value
    of [Date.now()] and [rnd] the value of [Math.round(Math.random() * 1E9)],
    an integer between 0 and 10^9. *)
Definition destination : string := "uploads/".

Definition storage_filename (now rnd : Z) (file : FilePart) : string :=
  let uniqueSuffix := pretty now +:+ "-" +:+ pretty rnd in
  fieldname file +:+ "-" +:+ uniqueSuffix +:+ Path.extname (originalname file).

(** The set of extensions the design document lists. *)
Definition listed_extensions : list string :=
  [".jpeg"; ".jpg"; ".png"; ".gif"; ".webp"].

End Upload.

(** A response: [res.status(code).json(value)]; [res.json(value)] alone
    answers with status 200. *)
Record Response : Type := mkResponse {
  status : Z;
  json : jsval
}.

(** The application's last middleware: what a rejected upload (or any
    error passed to [next]) is answered with. *)
Definition error_middleware (error : Error) : Response :=
  mkResponse (match err_status error with
              | Some s => if s =? 0 then 500 else s
              | None => 500
              end)
             (JObj [("error",
                     JStr (if String.eqb (message error) ""
                           then "Internal server error" else message error))]).

(** ** The outside world and the state of the process *)

(** What an [axios.post] comes back with: a response, or a rejection whose
    error carries the message the handlers report. *)
Inductive remote (A : Type) : Type :=
| Responded (data : A)
| Rejected (err : Error).
Arguments Responded {A} data.
Arguments Rejected {A} err.

(** One outbound HTTP call. *)
Record HttpCall : Type := mkCall {
  url : string;
  data : jsval;
  authorization : string
}.

(** Everything a handler reads from outside while it serves one request.
    A successful answer of the second provider is a JSON object, the
    prediction descriptor, given by its fields.  [disk_error] is the
    error a write to a path throws, if it throws; [disk_written] says,
    for a write that throws, how far it got: [None] when the file could
    not be opened, [Some n] when it was opened, which creates or truncates
    it, and [n] bytes had been written when the error came. *)
Record World : Type := {
  HUGGINGFACE_API_KEY : option string;
  REPLICATE_API_TOKEN : option string;
  now : Z;
  huggingface_api : HttpCall -> remote (list byte);
  replicate_api : HttpCall -> remote (list (string * jsval));
  disk_error : string -> option Error;
  disk_written : string -> option nat
}.

(** [process.env.NAME] as a condition, and inside a template literal. *)
Definition env_truthy (v : option string) : bool :=
  match v with
  | Some s => negb (String.eqb s "")
  | None => false
  end.

Definition env_string (v : option string) : string :=
  match v with
  | Some s => s
  | None => "undefined"
  end.

(** The state a handler changes: the files written under the working
    directory and the outbound calls made so far, oldest first. *)
Record Sys : Type := mkSys {
  files : gmap string (list byte);
  calls : list HttpCall
}.

Inductive result (A : Type) : Type :=
| Val (a : A)
| Exn (e : Error).
Arguments Val {A} a.
Arguments Exn {A} e.

(** State and exceptions. *)
Definition M (A : Type) : Type := Sys -> result A * Sys.

#[export] Instance M_ret : MRet M := fun A a s => (Val a, s).
#[export] Instance M_bind : MBind M := fun A B f m s =>
  match m s with
  | (Val a, s') => f a s'
  | (Exn e, s') => (Exn e, s')
  end.

Definition throw {A : Type} (e : Error) : M A := fun s => (Exn e, s).

(** [try { body } catch (error) { handler error }] *)
Definition try_catch {A : Type} (body : M A) (handler : Error -> M A) : M A :=
  fun s =>
    match body s with
    | (Val a, s') => (Val a, s')
    | (Exn e, s') => handler e s'
    end.

(** The state with one more call on the trace. *)
Definition record_call (c : HttpCall) (s : Sys) : Sys :=
  mkSys (files s) (calls s ++ [c]).

(** [await axios.post(url, data, {headers: {Authorization: auth}})] *)
Definition axios_post {A : Type} (api : HttpCall -> remote A)
    (url : string) (data : jsval) (auth : string) : M A :=
  fun s =>
    let call := mkCall url data auth in
    let s' := record_call call s in
    match api call with
    | Responded d => (Val d, s')
    | Rejected e => (Exn e, s')
    end.

(** What a write that throws leaves behind. *)
Definition left_by_failed_write (w : World) (filepath : string)
    (buffer : list byte) (s : Sys) : Sys :=
  match disk_written w filepath with
  | None => s
  | Some n => mkSys (<[filepath := take n buffer]> (files s)) (calls s)
  end.

(** [fs.writeFileSync(filepath, buffer)], with the default flag ['w']: the
    file is opened, which creates or truncates it, then written. *)
Definition writeFileSync (w : World) (filepath : string) (buffer : list byte)
  : M unit :=
  fun s =>
    match disk_error w filepath with
    | Some e => (Exn e, left_by_failed_write w filepath buffer s)
    | None => (Val tt, mkSys (<[filepath := buffer]> (files s)) (calls s))
    end.

(** ** Provider clients *)

Definition HUGGINGFACE_URL : string :=
  "https://api-inference.huggingface.co/models/stabilityai/stable-diffusion-xl-base-1.0".

Definition REPLICATE_URL : string := "https://api.replicate.com/v1/predictions".

(** [generateWithHuggingFace(prompt, imageBase64 = null)] *)
Definition generateWithHuggingFace (w : World) (prompt imageBase64 : jsval)
  : M (list byte) :=
  try_catch
    (let HF_API_KEY := HUGGINGFACE_API_KEY w in
     if negb (env_truthy HF_API_KEY) then
       throw (new_Error "Hugging Face API key not configured. Get free key at https://huggingface.co/settings/tokens")
     else
       response ← axios_post (huggingface_api w) HUGGINGFACE_URL
                    (JObj [("inputs", prompt)])
                    ("Bearer " +:+ env_string HF_API_KEY);
       mret response)
    (fun error => throw error).

(** [generateWithReplicate(prompt, imageUrl = null)] *)
Definition generateWithReplicate (w : World) (prompt imageUrl : jsval)
  : M (list (string * jsval)) :=
  try_catch
    (let REPLICATE_API_TOKEN := REPLICATE_API_TOKEN w in
     if negb (env_truthy REPLICATE_API_TOKEN) then
       throw (new_Error "Replicate API token not configured. Get free credits at https://replicate.com")
     else
       response ← axios_post (replicate_api w) REPLICATE_URL
                    (JObj [("version",
                            JStr "c871bb9b046607b680449ecbae55fd8c6d945e0a1948644bf2361b3d021d3ff4");
                           ("input",
                            JObj [("garm_img", imageUrl);
                                  ("human_img", JStr "https://example.com/model.jpg");
                                  ("garment_des", prompt)])])
                    ("Token " +:+ env_string REPLICATE_API_TOKEN);
       mret response)
    (fun error => throw error).

(** ** Requests *)

(** [req.file] as multer leaves it after a stored upload. *)
Record UploadedFile : Type := {
  part : FilePart;
  filename : string;
  path : string;
  size : Z
}.

(** [host] is [req.get('host')]; [body] is [req.body], an object. *)
Record Request : Type := {
  protocol : string;
  host : string;
  file : option UploadedFile;
  body : jsval
}.

Definition origin (req : Request) : string :=
  protocol req +:+ "://" +:+ host req.

(** ** Routes *)

Definition HF_LABEL : string := "Hugging Face (FREE)".
Definition REPLICATE_LABEL : string := "Replicate (Free Tier)".

(** The name of a generated file: [`generated-${Date.now()}.png`]. *)
Definition generated_filename (w : World) : string :=
  "generated-" +:+ pretty (now w) +:+ ".png".

(** [POST /generate-simple] *)
Definition generate_simple (w : World) (req : Request) : M Response :=
  try_catch
    (let prompt := Js.get "prompt" (body req) in
     if negb (truthy prompt) then
       mret (mkResponse 400 (JObj [("error", JStr "Prompt is required")]))
     else
       imageBuffer ← generateWithHuggingFace w prompt JNull;
       let filename := generated_filename w in
       let filepath := Path.join "generated" filename in
       _ ← writeFileSync w filepath imageBuffer;
       let imageUrl := origin req +:+ "/generated/" +:+ filename in
       mret (mkResponse 200
               (JObj [("message", JStr "Image generated successfully");
                      ("generatedImage", JStr imageUrl);
                      ("prompt", prompt);
                      ("service", JStr HF_LABEL)])))
    (fun error =>
       mret (mkResponse 500
               (JObj [("error", JStr "Failed to generate image");
                      ("details", JStr (message error));
                      ("setup",
                       JStr "Add HUGGINGFACE_API_KEY to .env file. Get free key at https://huggingface.co/settings/tokens")]))).

Definition DEFAULT_PROMPT : string :=
  "Professional fashion model wearing elegant dress, studio lighting, high quality, detailed, commercial photography".

Definition SETUP_GUIDE : jsval :=
  JObj [("huggingFace",
         JStr "Add HUGGINGFACE_API_KEY to .env - Get free at https://huggingface.co/settings/tokens");
        ("replicate",
         JStr "Add REPLICATE_API_TOKEN to .env - Get free credits at https://replicate.com")].

(** [POST /generate], entered after [upload.single('image')] has stored
    the file part, if the request had one.  The two local variables
    [generatedImage] and [usedService] are declared without a value, so
    they are [undefined] when no branch assigns them; the provider block
    yields the pair of values they hold when it is left. *)
Definition generate (w : World) (req : Request) : M Response :=
  try_catch
    (match file req with
     | None =>
       mret (mkResponse 400 (JObj [("error", JStr "No image file provided")]))
     | Some f =>
       let prompt := Js.get "prompt" (body req) in
       let service := Js.get "service" (body req) in
       let uploadedImagePath := path f in
       let uploadedImageUrl := origin req +:+ "/" +:+ uploadedImagePath in
       let fullPrompt := Js.or prompt (JStr DEFAULT_PROMPT) in
       '(generatedImage, usedService) ←
          (if negb (truthy service) || strict_eq_str service "huggingface" then
             try_catch
               (imageBuffer ← generateWithHuggingFace w fullPrompt JNull;
                let filename := generated_filename w in
                let filepath := Path.join "generated" filename in
                _ ← writeFileSync w filepath imageBuffer;
                mret (JStr (origin req +:+ "/generated/" +:+ filename),
                      JStr HF_LABEL))
               (fun hfError =>
                  if env_truthy (REPLICATE_API_TOKEN w) then
                    result ← generateWithReplicate w fullPrompt
                               (JStr uploadedImageUrl);
                    mret (Js.or (Js.opt_get "get" (lookup_field "urls" result))
                                (lookup_field "id" result),
                          JStr REPLICATE_LABEL)
                  else throw (new_Error "No AI service configured properly"))
           else mret (JUndefined, JUndefined));
       mret (mkResponse 200
               (JObj [("message", JStr "Image processing completed");
                      ("uploadedImage", JStr uploadedImageUrl);
                      ("generatedImage", generatedImage);
                      ("prompt", fullPrompt);
                      ("service", usedService);
                      ("status", JStr "completed")]))
     end)
    (fun error =>
       mret (mkResponse 500
               (JObj [("error", JStr "Failed to generate product image");
                      ("details", JStr (message error));
                      ("setup", SETUP_GUIDE)]))).

(** ** Reading a run *)

(** A handler run from a state: the response and the state it leaves. *)
Definition respond (h : M Response) (s : Sys) : option Response :=
  match h s with
  | (Val r, _) => Some r
  | (Exn _, _) => None
  end.

Definition after {A : Type} (h : M A) (s : Sys) : Sys := snd (h s).

(** The calls a computation adds to the trace. *)
Definition calls_made {A : Type} (h : M A) (s : Sys) : list HttpCall :=
  drop (List.length (calls s)) (calls (after h s)).

Definition to_service_A (c : HttpCall) : bool := String.eqb (url c) HUGGINGFACE_URL.
Definition to_service_B (c : HttpCall) : bool := String.eqb (url c) REPLICATE_URL.

(** A response reports completion. *)
Definition completed (r : Response) : bool :=
  strict_eq_str (Js.get "status" (json r)) "completed".

(** The call each client sends once its credential is found. *)
Definition hf_call (w : World) (prompt : jsval) : HttpCall :=
  mkCall HUGGINGFACE_URL (JObj [("inputs", prompt)])
         ("Bearer " +:+ env_string (HUGGINGFACE_API_KEY w)).

Definition replicate_call (w : World) (prompt imageUrl : jsval) : HttpCall :=
  mkCall REPLICATE_URL
         (JObj [("version",
                 JStr "c871bb9b046607b680449ecbae55fd8c6d945e0a1948644bf2361b3d021d3ff4");
                ("input",
                 JObj [("garm_img", imageUrl);
                       ("human_img", JStr "https://example.com/model.jpg");
                       ("garment_des", prompt)])])
         ("Token " +:+ env_string (REPLICATE_API_TOKEN w)).

Definition HF_NOT_CONFIGURED : Error :=
  new_Error "Hugging Face API key not configured. Get free key at https://huggingface.co/settings/tokens".

Definition REPLICATE_NOT_CONFIGURED : Error :=
  new_Error "Replicate API token not configured. Get free credits at https://replicate.com".

(** What a client's invocation comes to in a world: the provider's answer,
    or the local failure when the credential is missing. *)
Definition service_A_outcome (w : World) (prompt : jsval) : remote (list byte) :=
  if env_truthy (HUGGINGFACE_API_KEY w)
  then huggingface_api w (hf_call w prompt)
  else Rejected HF_NOT_CONFIGURED.

Definition service_B_outcome (w : World) (prompt imageUrl : jsval)
  : remote (list (string * jsval)) :=
  if env_truthy (REPLICATE_API_TOKEN w)
  then replicate_api w (replicate_call w prompt imageUrl)
  else Rejected REPLICATE_NOT_CONFIGURED.

Definition succeeds {A : Type} (r : remote A) : bool :=
  match r with
  | Responded _ => true
  | Rejected _ => false
  end.

(** The state once a client has run: the call is on the trace when the
    credential was there to send it. *)
Definition sent (configured : bool) (c : HttpCall) (s : Sys) : Sys :=
  if configured then record_call c s else s.

(** The values [/generate] works with. *)
Definition uploadedImageUrl (req : Request) (f : UploadedFile) : string :=
  origin req +:+ "/" +:+ path f.

Definition fullPrompt (req : Request) : jsval :=
  Js.or (Js.get "prompt" (body req)) (JStr DEFAULT_PROMPT).

Definition service_field (req : Request) : jsval := Js.get "service" (body req).

(** The two response shapes of [/generate]. *)
Definition completed_response (req : Request) (f : UploadedFile)
    (generatedImage usedService : jsval) : Response :=
  mkResponse 200
    (JObj [("message", JStr "Image processing completed");
           ("uploadedImage", JStr (uploadedImageUrl req f));
           ("generatedImage", generatedImage);
           ("prompt", fullPrompt req);
           ("service", usedService);
           ("status", JStr "completed")]).

Definition failure_response (details : string) : Response :=
  mkResponse 500
    (JObj [("error", JStr "Failed to generate product image");
           ("details", JStr details);
           ("setup", SETUP_GUIDE)]).

(** What the fallback branch reads off a prediction descriptor:
    [result.urls?.get || result.id]. *)
Definition descriptor_location (result : list (string * jsval)) : jsval :=
  Js.or (Js.opt_get "get" (lookup_field "urls" result)) (lookup_field "id" result).

(** The condition under which [/generate] starts with the first provider:
    [!service || service === 'huggingface']. *)
Definition takes_A_first (service : jsval) : bool :=
  negb (truthy service) || strict_eq_str service "huggingface".

(** Where a generated image is written and where it is served. *)
Definition generated_path (w : World) : string :=
  Path.join "generated" (generated_filename w).

Definition generated_url (w : World) (req : Request) : string :=
  origin req +:+ "/generated/" +:+ generated_filename w.

(** What the catch branch of [/generate] comes to when it is entered in
    state [s]: the fallback call if the second credential is set, the
    configuration failure otherwise. *)
Definition fallback_outcome (w : World) (req : Request) (f : UploadedFile)
    (s : Sys) : result Response * Sys :=
  let rc := replicate_call w (fullPrompt req) (JStr (uploadedImageUrl req f)) in
  if env_truthy (REPLICATE_API_TOKEN w) then
    match replicate_api w rc with
    | Responded d =>
      (Val (completed_response req f (descriptor_location d) (JStr REPLICATE_LABEL)),
       record_call rc s)
    | Rejected e => (Val (failure_response (message e)), record_call rc s)
    end
  else (Val (failure_response "No AI service configured properly"), s).

(** The responses of [/generate-simple]. *)
Definition simple_success (w : World) (req : Request) (prompt : jsval) : Response :=
  mkResponse 200
    (JObj [("message", JStr "Image generated successfully");
           ("generatedImage", JStr (generated_url w req));
           ("prompt", prompt);
           ("service", JStr HF_LABEL)]).

Definition simple_failure (details : string) : Response :=
  mkResponse 500
    (JObj [("error", JStr "Failed to generate image");
           ("details", JStr details);
           ("setup",
            JStr "Add HUGGINGFACE_API_KEY to .env file. Get free key at https://huggingface.co/settings/tokens")]).

(** A field of the [input] object of an outbound call's body. *)
Definition input_field (k : string) (c : HttpCall) : jsval :=
  Js.get k (Js.get "input" (data c)).

(** [w] occurs in [s] as a substring. *)
Definition occurs_in (w s : string) : Prop :=
  exists pre post, s = pre +:+ w +:+ post.

(** ** The other routes *)

(** [POST /upload] of the 2.0.0 server, entered after [upload.single('image')]. *)
Definition post_upload (req : Request) : M Response :=
  try_catch
    (match file req with
     | None => mret (mkResponse 400 (JObj [("error", JStr "No file uploaded")]))
     | Some f =>
       mret (mkResponse 200
               (JObj [("message", JStr "File uploaded successfully");
                      ("file",
                       JObj [("filename", JStr (filename f));
                             ("path", JStr (path f));
                             ("size", JNum (size f));
                             ("mimetype", JStr (mimetype (part f)));
                             ("url", JStr (origin req +:+ "/" +:+ path f))])]))
     end)
    (fun error =>
       mret (mkResponse 500 (JObj [("error", JStr "Failed to upload file")]))).

(** [GET /health] of the 2.0.0 server; [timestamp] is
    [new Date().toISOString()]. *)
Definition health (w : World) (timestamp : string) : Response :=
  mkResponse 200
    (JObj [("status", JStr "OK");
           ("timestamp", JStr timestamp);
           ("freeAPIs",
            JObj [("huggingFace", JBool (env_truthy (HUGGINGFACE_API_KEY w)));
                  ("replicate", JBool (env_truthy (REPLICATE_API_TOKEN w)))])]).

(** The routes of [app.js], the 1.0.0 server. *)
Module V1.

Definition post_upload (req : Request) : M Response :=
  try_catch
    (match file req with
     | None => mret (mkResponse 400 (JObj [("error", JStr "No file uploaded")]))
     | Some f =>
       mret (mkResponse 200
               (JObj [("message", JStr "File uploaded successfully");
                      ("file",
                       JObj [("filename", JStr (filename f));
                             ("path", JStr (path f));
                             ("size", JNum (size f));
                             ("mimetype", JStr (mimetype (part f)))])]))
     end)
    (fun error =>
       mret (mkResponse 500 (JObj [("error", JStr "Failed to upload file")]))).

Definition generate (req : Request) : M Response :=
  try_catch
    (match file req with
     | None =>
       mret (mkResponse 400 (JObj [("error", JStr "No image file provided")]))
     | Some f =>
       let uploadedImagePath := path f in
       let uploadedImageUrl := origin req +:+ "/" +:+ uploadedImagePath in
       mret (mkResponse 200
               (JObj [("message", JStr "Image processing initiated");
                      ("uploadedImage", JStr uploadedImageUrl);
                      ("status", JStr "processing");
                      ("note", JStr "Integrate with AI API (FASHN.ai, Piccopilot, or similar) to generate product images with models");
                      ("integrationSteps",
                       JArr [JStr "1. Sign up for an AI image generation API (FASHN.ai recommended for fashion)";
                             JStr "2. Add API key to .env file: AI_API_KEY=your_key_here";
                             JStr "3. Implement API call to generate image with model";
                             JStr "4. Save generated image to /generated directory";
                             JStr "5. Return generated image URL"])]))
     end)
    (fun error =>
       mret (mkResponse 500 (JObj [("error", JStr "Failed to generate product image")]))).

Definition directories : list string := ["uploads"; "generated"].

End V1.

(** ** Start-up: the working directories

    [directories.forEach(dir => { if (!fs.existsSync(dir)) fs.mkdirSync(dir,
    {recursive: true}) })], over the set of paths that exist. *)

Definition directories : list string := ["uploads"; "generated"; "public"].

Definition ensure_directory (existing : gset string) (dir : string) : gset string :=
  if decide (dir ∈ existing) then existing else {[dir]} ∪ existing.

Definition ensure_directories (dirs : list string) (existing : gset string)
  : gset string :=
  foldl ensure_directory existing dirs.

(** ** Further vocabulary for the properties *)

(** Whether the catch branch of [/generate] is entered: the first
    provider's client threw, or the write of its image did. *)
Definition fallback_entered (w : World) (req : Request) : bool :=
  match service_A_outcome w (fullPrompt req) with
  | Responded _ =>
    match disk_error w (generated_path w) with
    | Some _ => true
    | None => false
    end
  | Rejected _ => true
  end.

(** The value [outcome] of a run, beside the state it leaves. *)
Definition outcome {A : Type} (h : M A) (s : Sys) : result A := fst (h s).

(** A character list without a dot, without a slash, without a dash. *)
Definition dot_free (l : list ascii) : Prop := Forall (fun c => c <> "."%char) l.
Definition slash_free (l : list ascii) : Prop := Forall (fun c => c <> "/"%char) l.
Definition dash_free (l : list ascii) : Prop := Forall (fun c => c <> "-"%char) l.

Definition is_digit (c : ascii) : bool :=
  let n := N_of_ascii c in ((48 <=? n) && (n <=? 57))%N.

(** What [preDotState] holds once the characters [l] have been scanned
    after the extension's dot, from [pds]: each character overwrites it,
    a dot with 1 and any other with -1. *)
Fixpoint pds_after (l : list ascii) (pds : Z) : Z :=
  match l with
  | [] => pds
  | c :: l' => pds_after l' (if Ascii.eqb c "." then 1 else -1)
  end.

(** ** Sample worlds and requests *)

Module Sample.

(** The first bytes of a PNG file, and of another one. *)
Definition png1 : list byte := [x89; x50; x4e; x47; x0d; x0a; x1a; x0a; x01].
Definition png2 : list byte := [x89; x50; x4e; x47; x0d; x0a; x1a; x0a; x02].

Definition descriptor : list (string * jsval) :=
  [("id", JStr "p7x2");
   ("status", JStr "starting");
   ("urls", JObj [("get", JStr "https://api.replicate.com/v1/predictions/p7x2")])].

Definition down : Error := new_Error "Request failed with status code 503".

(** A world given by its two credentials and what the two providers do. *)
Definition world (hf_key replicate_token : option string)
    (a : remote (list byte)) (b : remote (list (string * jsval))) : World :=
  {| HUGGINGFACE_API_KEY := hf_key;
     REPLICATE_API_TOKEN := replicate_token;
     now := 1730538000123;
     huggingface_api := fun _ => a;
     replicate_api := fun _ => b;
     disk_error := fun _ => None;
     disk_written := fun _ => None |}.

Definition sys0 : Sys := mkSys ∅ [].

Definition dress : UploadedFile :=
  {| part := {| fieldname := "image"; originalname := "dress.png";
                mimetype := "image/png" |};
     filename := "image-1730537999000-482911377.png";
     path := "uploads/image-1730537999000-482911377.png";
     size := 48213 |}.

(** A multipart request to [/generate] with the given text fields. *)
Definition upload_request (f : option UploadedFile) (fields : list (string * jsval))
  : Request :=
  {| protocol := "http"; host := "localhost:3000"; file := f;
     body := JObj fields |}.

(** A JSON request to [/generate-simple]. *)
Definition json_request (fields : list (string * jsval)) : Request :=
  {| protocol := "http"; host := "localhost:3000"; file := None;
     body := JObj fields |}.

End Sample.

(** * Properties *)

(** ** How the clients and the routes run *)

Ltac unfold_monad :=
  cbv [try_catch axios_post writeFileSync throw mbind mret M_bind M_ret].

Lemma generateWithHuggingFace_run w prompt imageBase64 s :
  generateWithHuggingFace w prompt imageBase64 s =
  (match service_A_outcome w prompt with
   | Responded d => Val d
   | Rejected e => Exn e
   end,
   sent (env_truthy (HUGGINGFACE_API_KEY w)) (hf_call w prompt) s).
Proof.
  unfold generateWithHuggingFace, service_A_outcome, sent. unfold_monad.
  destruct (env_truthy (HUGGINGFACE_API_KEY w)); simpl; [|reflexivity].
  fold (hf_call w prompt).
  destruct (huggingface_api w (hf_call w prompt)); reflexivity.
Qed.

Lemma generateWithReplicate_run w prompt imageUrl s :
  generateWithReplicate w prompt imageUrl s =
  (match service_B_outcome w prompt imageUrl with
   | Responded d => Val d
   | Rejected e => Exn e
   end,
   sent (env_truthy (REPLICATE_API_TOKEN w)) (replicate_call w prompt imageUrl) s).
Proof.
  unfold generateWithReplicate, service_B_outcome, sent. unfold_monad.
  destruct (env_truthy (REPLICATE_API_TOKEN w)); simpl; [|reflexivity].
  fold (replicate_call w prompt imageUrl).
  destruct (replicate_api w (replicate_call w prompt imageUrl)); reflexivity.
Qed.

Lemma calls_sent b c s :
  calls (sent b c s) = (calls s ++ (if b then [c] else []))%list.
Proof. destruct b; simpl; [reflexivity | by rewrite app_nil_r]. Qed.

Lemma files_sent b c s : files (sent b c s) = files s.
Proof. by destruct b. Qed.

Lemma calls_made_app {A : Type} (h : M A) s l :
  calls (after h s) = (calls s ++ l)%list -> calls_made h s = l.
Proof. intros E. unfold calls_made. rewrite E. apply drop_app_length. Qed.

Lemma calls_failed_write w filepath buffer s :
  calls (left_by_failed_write w filepath buffer s) = calls s.
Proof. unfold left_by_failed_write. by destruct (disk_written w filepath). Qed.

(** [/generate], case by case. *)
Lemma generate_run w req s :
  generate w req s =
  match file req with
  | None => (Val (mkResponse 400 (JObj [("error", JStr "No image file provided")])), s)
  | Some f =>
    if takes_A_first (service_field req) then
      let sA := sent (env_truthy (HUGGINGFACE_API_KEY w))
                     (hf_call w (fullPrompt req)) s in
      match service_A_outcome w (fullPrompt req) with
      | Responded d =>
        match disk_error w (generated_path w) with
        | None =>
          (Val (completed_response req f (JStr (generated_url w req)) (JStr HF_LABEL)),
           mkSys (<[generated_path w := d]> (files sA)) (calls sA))
        | Some _ =>
          fallback_outcome w req f
            (left_by_failed_write w (generated_path w) d sA)
        end
      | Rejected _ => fallback_outcome w req f sA
      end
    else (Val (completed_response req f JUndefined JUndefined), s)
  end.
Proof.
  unfold generate, fallback_outcome.
  destruct (file req) as [f|]; [|reflexivity].
  fold (service_field req) (fullPrompt req) (uploadedImageUrl req f).
  fold (takes_A_first (service_field req)).
  destruct (takes_A_first (service_field req)); [|reflexivity].
  cbv [try_catch mbind mret M_bind M_ret throw writeFileSync].
  rewrite generateWithHuggingFace_run.
  fold (generated_path w).
  destruct (service_A_outcome w (fullPrompt req)) as [d|e].
  - destruct (disk_error w (generated_path w)) as [e|]; [|reflexivity].
    destruct (env_truthy (REPLICATE_API_TOKEN w)) eqn:Etok; [|reflexivity].
    rewrite generateWithReplicate_run. unfold service_B_outcome, sent at 1.
    rewrite Etok.
    destruct (replicate_api w _); reflexivity.
  - destruct (env_truthy (REPLICATE_API_TOKEN w)) eqn:Etok; [|reflexivity].
    rewrite generateWithReplicate_run. unfold service_B_outcome, sent at 1.
    rewrite Etok.
    destruct (replicate_api w _); reflexivity.
Qed.

(** [/generate-simple], case by case. *)
Lemma generate_simple_run w req s :
  generate_simple w req s =
  let prompt := Js.get "prompt" (body req) in
  if truthy prompt then
    let sA := sent (env_truthy (HUGGINGFACE_API_KEY w)) (hf_call w prompt) s in
    match service_A_outcome w prompt with
    | Responded d =>
      match disk_error w (generated_path w) with
      | None => (Val (simple_success w req prompt),
                 mkSys (<[generated_path w := d]> (files sA)) (calls sA))
      | Some e => (Val (simple_failure (message e)),
                   left_by_failed_write w (generated_path w) d sA)
      end
    | Rejected e => (Val (simple_failure (message e)), sA)
    end
  else (Val (mkResponse 400 (JObj [("error", JStr "Prompt is required")])), s).
Proof.
  unfold generate_simple. cbv zeta.
  destruct (truthy (Js.get "prompt" (body req))); [|reflexivity].
  cbv [try_catch mbind mret M_bind M_ret throw writeFileSync negb].
  rewrite generateWithHuggingFace_run.
  fold (generated_path w).
  destruct (service_A_outcome w _) as [d|e]; [|reflexivity].
  destruct (disk_error w (generated_path w)); reflexivity.
Qed.

(** Both routes always answer: the outer [catch] turns every exception
    into a response. *)
Lemma generate_answers w req s : exists r, respond (generate w req) s = Some r.
Proof.
  unfold respond. rewrite generate_run. unfold fallback_outcome.
  destruct (file req); [|simpl; eauto].
  destruct (takes_A_first _); [|simpl; eauto]. cbv zeta.
  destruct (service_A_outcome w _); [destruct (disk_error w _)|];
    destruct (env_truthy (REPLICATE_API_TOKEN w));
    try destruct (replicate_api w _); simpl; eauto.
Qed.

Lemma generate_simple_answers w req s :
  exists r, respond (generate_simple w req) s = Some r.
Proof.
  unfold respond. rewrite generate_simple_run. cbv zeta.
  destruct (truthy _); [|simpl; eauto].
  destruct (service_A_outcome w _); [destruct (disk_error w _)|]; simpl; eauto.
Qed.

Lemma hf_call_not_B w p : to_service_B (hf_call w p) = false.
Proof. reflexivity. Qed.

Lemma replicate_call_B w p i : to_service_B (replicate_call w p i) = true.
Proof. reflexivity. Qed.

(** The run of [/generate] once the first provider's client has thrown. *)
Lemma generate_after_A_failure w req f s e :
  file req = Some f ->
  takes_A_first (service_field req) = true ->
  service_A_outcome w (fullPrompt req) = Rejected e ->
  generate w req s =
  fallback_outcome w req f
    (sent (env_truthy (HUGGINGFACE_API_KEY w)) (hf_call w (fullPrompt req)) s).
Proof.
  intros Hf Hs HA. rewrite generate_run, Hf, Hs. cbv zeta. by rewrite HA.
Qed.

(** The calls of such a run: the first provider's, if its key was set,
    then the fallback's, if the second credential is set. *)
Lemma calls_after_A_failure w req f s e :
  file req = Some f ->
  takes_A_first (service_field req) = true ->
  service_A_outcome w (fullPrompt req) = Rejected e ->
  calls_made (generate w req) s =
  ((if env_truthy (HUGGINGFACE_API_KEY w) then [hf_call w (fullPrompt req)] else []) ++
   (if env_truthy (REPLICATE_API_TOKEN w)
    then [replicate_call w (fullPrompt req) (JStr (uploadedImageUrl req f))]
    else []))%list.
Proof.
  intros Hf Hs HA. apply calls_made_app. unfold after.
  rewrite (generate_after_A_failure w req f s e Hf Hs HA).
  unfold fallback_outcome.
  destruct (env_truthy (REPLICATE_API_TOKEN w)).
  - destruct (replicate_api w _); simpl; rewrite calls_sent; by rewrite app_assoc.
  - simpl. rewrite calls_sent. by rewrite app_nil_r.
Qed.

Lemma filter_B_after_A_failure w req f s e :
  file req = Some f ->
  takes_A_first (service_field req) = true ->
  service_A_outcome w (fullPrompt req) = Rejected e ->
  List.filter to_service_B (calls_made (generate w req) s) =
  if env_truthy (REPLICATE_API_TOKEN w)
  then [replicate_call w (fullPrompt req) (JStr (uploadedImageUrl req f))]
  else [].
Proof.
  intros Hf Hs HA. rewrite (calls_after_A_failure w req f s e Hf Hs HA).
  destruct (env_truthy (HUGGINGFACE_API_KEY w)),
           (env_truthy (REPLICATE_API_TOKEN w)); reflexivity.
Qed.

Lemma respond_after_A_failure w req f s e :
  file req = Some f ->
  takes_A_first (service_field req) = true ->
  service_A_outcome w (fullPrompt req) = Rejected e ->
  respond (generate w req) s =
  Some (if env_truthy (REPLICATE_API_TOKEN w) then
          match replicate_api w (replicate_call w (fullPrompt req)
                                   (JStr (uploadedImageUrl req f))) with
          | Responded d =>
            completed_response req f (descriptor_location d) (JStr REPLICATE_LABEL)
          | Rejected e' => failure_response (message e')
          end
        else failure_response "No AI service configured properly").
Proof.
  intros Hf Hs HA. unfold respond.
  rewrite (generate_after_A_failure w req f s e Hf Hs HA).
  unfold fallback_outcome.
  destruct (env_truthy (REPLICATE_API_TOKEN w)); [|reflexivity].
  destruct (replicate_api w _); reflexivity.
Qed.

(** ** Explicit choice of the first provider *)

(** C1, as the code has it: when the request names 'huggingface' and the
    first provider's call fails, the fallback call to the second provider
    is made exactly when REPLICATE_API_TOKEN is set; without the token no
    call to the second provider is made and the request ends in the
    failure response. *)
Theorem explicit_huggingface_fallback w req f s e :
  file req = Some f ->
  service_field req = JStr "huggingface" ->
  service_A_outcome w (fullPrompt req) = Rejected e ->
  (env_truthy (REPLICATE_API_TOKEN w) = true ->
   List.filter to_service_B (calls_made (generate w req) s) =
   [replicate_call w (fullPrompt req) (JStr (uploadedImageUrl req f))]) /\
  (env_truthy (REPLICATE_API_TOKEN w) = false ->
   List.filter to_service_B (calls_made (generate w req) s) = [] /\
   respond (generate w req) s =
   Some (failure_response "No AI service configured properly")).
Proof.
  intros Hf Hs HA.
  assert (Hfirst : takes_A_first (service_field req) = true) by by rewrite Hs.
  pose proof (filter_B_after_A_failure w req f s e Hf Hfirst HA) as HB.
  pose proof (respond_after_A_failure w req f s e Hf Hfirst HA) as HR.
  split; intros Htok; rewrite Htok in *; auto.
Qed.

Lemma explicit_huggingface_fallback_witness :
  let w := Sample.world None (Some "r8_t") (Rejected Sample.down)
                        (Responded Sample.descriptor) in
  let req := Sample.upload_request (Some Sample.dress)
               [("service", JStr "huggingface")] in
  (file req = Some Sample.dress /\
   service_field req = JStr "huggingface" /\
   service_A_outcome w (fullPrompt req) = Rejected HF_NOT_CONFIGURED /\
   env_truthy (REPLICATE_API_TOKEN w) = true) /\
  List.filter to_service_B (calls_made (generate w req) Sample.sys0) =
  [replicate_call w (JStr DEFAULT_PROMPT)
     (JStr "http://localhost:3000/uploads/image-1730537999000-482911377.png")].
Proof.
  intros w req. split; [repeat split|].
  apply (explicit_huggingface_fallback w req Sample.dress Sample.sys0
           HF_NOT_CONFIGURED); reflexivity.
Defined.

(** C1, as stated, fails: the request names 'huggingface', the first
    provider's call is rejected, REPLICATE_API_TOKEN is set, and the
    second provider is called and its descriptor answers the request. *)
Lemma explicit_huggingface_not_strict :
  let w := Sample.world (Some "hf_k") (Some "r8_t") (Rejected Sample.down)
                        (Responded Sample.descriptor) in
  let req := Sample.upload_request (Some Sample.dress)
               [("service", JStr "huggingface")] in
  service_field req = JStr "huggingface" /\
  service_A_outcome w (fullPrompt req) = Rejected Sample.down /\
  List.existsb to_service_B (calls_made (generate w req) Sample.sys0) = true /\
  respond (generate w req) Sample.sys0 =
  Some (completed_response req Sample.dress
          (JStr "https://api.replicate.com/v1/predictions/p7x2")
          (JStr REPLICATE_LABEL)).
Proof. repeat split; vm_compute; reflexivity. Qed.

(** ** Explicit choice of the second provider *)

(** A [service] value that is neither empty nor 'huggingface' skips the
    provider block: nothing is called, nothing is written, and the
    response reports completion with both variables still [undefined]. *)
Lemma generate_other_service w req f s :
  file req = Some f ->
  takes_A_first (service_field req) = false ->
  generate w req s = (Val (completed_response req f JUndefined JUndefined), s).
Proof. intros Hf Hs. by rewrite generate_run, Hf, Hs. Qed.

Lemma calls_made_unchanged {A : Type} (h : M A) s :
  after h s = s -> calls_made h s = [].
Proof.
  intros E. apply calls_made_app. rewrite E. by rewrite app_nil_r.
Qed.

(** C2: the code at a request that names 'replicate', with both
    credentials set and both providers answering: no provider is called,
    and the request is answered 200 'completed' without a generated image
    and without a service. *)
Theorem explicit_replicate_calls_nothing :
  let w := Sample.world (Some "hf_k") (Some "r8_t") (Responded Sample.png1)
                        (Responded Sample.descriptor) in
  let req := Sample.upload_request (Some Sample.dress)
               [("prompt", JStr "red evening dress"); ("service", JStr "replicate")] in
  service_field req = JStr "replicate" /\
  calls_made (generate w req) Sample.sys0 = [] /\
  respond (generate w req) Sample.sys0 =
  Some (mkResponse 200
          (JObj [("message", JStr "Image processing completed");
                 ("uploadedImage",
                  JStr "http://localhost:3000/uploads/image-1730537999000-482911377.png");
                 ("generatedImage", JUndefined);
                 ("prompt", JStr "red evening dress");
                 ("service", JUndefined);
                 ("status", JStr "completed")])).
Proof. repeat split; vm_compute; reflexivity. Qed.

(** ** Completed responses *)

(** On the first provider's success the response names the written file. *)
Lemma generate_completed_by_A w req f s d :
  file req = Some f ->
  takes_A_first (service_field req) = true ->
  service_A_outcome w (fullPrompt req) = Responded d ->
  disk_error w (generated_path w) = None ->
  respond (generate w req) s =
  Some (completed_response req f (JStr (generated_url w req)) (JStr HF_LABEL)) /\
  files (after (generate w req) s) !! generated_path w = Some d /\
  nonempty_string (JStr (generated_url w req)) = true.
Proof.
  intros Hf Hs HA Hd. unfold respond, after.
  rewrite generate_run, Hf, Hs. cbv zeta. rewrite HA, Hd. simpl.
  split; [reflexivity|]. split; [apply lookup_insert_eq|].
  unfold generated_url, origin. by destruct (protocol req).
Qed.

(** Where the location of a completed response comes from: the file
    written for the first provider, the second provider's descriptor, or,
    when the provider block was skipped, nowhere. *)
Lemma completed_location w req f s r :
  file req = Some f ->
  respond (generate w req) s = Some r ->
  completed r = true ->
  (Js.get "generatedImage" (json r) = JStr (generated_url w req) /\
   is_Some (files (after (generate w req) s) !! generated_path w)) \/
  (exists d,
     replicate_api w (replicate_call w (fullPrompt req)
                        (JStr (uploadedImageUrl req f))) = Responded d /\
     Js.get "generatedImage" (json r) = descriptor_location d) \/
  (takes_A_first (service_field req) = false /\
   Js.get "generatedImage" (json r) = JUndefined).
Proof.
  intros Hf. unfold respond, after. rewrite generate_run, Hf.
  unfold fallback_outcome.
  destruct (takes_A_first _); [|intros [= <-] _; right; right; by split].
  cbv zeta.
  destruct (service_A_outcome w _); [destruct (disk_error w _)|];
    destruct (env_truthy (REPLICATE_API_TOKEN w));
    try destruct (replicate_api w _) eqn:EB;
    intros [= <-] Hc; try discriminate Hc;
    first [ right; left; eexists; split; [reflexivity|reflexivity]
          | left; split; [reflexivity|]; simpl; rewrite lookup_insert_eq; eauto ].
Qed.

(** A descriptor with a non-empty [urls.get] gives that string. *)
Lemma descriptor_location_urls result fields u :
  lookup_field "urls" result = JObj fields ->
  lookup_field "get" fields = JStr u ->
  u <> "" ->
  descriptor_location result = JStr u.
Proof.
  intros Hu Hg Hne. unfold descriptor_location, Js.or, Js.opt_get, Js.get.
  rewrite Hu, Hg. simpl.
  destruct (String.eqb u "") eqn:E; [|reflexivity].
  by apply String.eqb_eq in E.
Qed.

(** C3: the code at a request whose [service] is 'replicate': the
    response has status 'completed' and its [generatedImage] is
    [undefined], with no file written and no descriptor obtained. *)
Theorem completed_without_output_location :
  let w := Sample.world None (Some "r8_t") (Rejected Sample.down)
                        (Responded Sample.descriptor) in
  let req := Sample.upload_request (Some Sample.dress)
               [("service", JStr "replicate")] in
  exists r,
    respond (generate w req) Sample.sys0 = Some r /\
    status r = 200 /\
    completed r = true /\
    Js.get "generatedImage" (json r) = JUndefined /\
    nonempty_string (Js.get "generatedImage" (json r)) = false /\
    files (after (generate w req) Sample.sys0) = ∅ /\
    calls_made (generate w req) Sample.sys0 = [].
Proof.
  eexists. split; [vm_compute; reflexivity|]. repeat split.
Qed.

(** A descriptor that carries neither [urls.get] nor [id] also completes
    without a location. *)
Lemma descriptor_location_missing :
  descriptor_location [("status", JStr "starting")] = JUndefined.
Proof. reflexivity. Qed.

(** ** Default route: fallback to the second provider *)

(** Without REPLICATE_API_TOKEN no request to [/generate] reaches the
    second provider. *)
Lemma no_B_call_without_token w req s :
  env_truthy (REPLICATE_API_TOKEN w) = false ->
  List.filter to_service_B (calls_made (generate w req) s) = [].
Proof.
  intros Htok.
  assert (E : exists l, calls (after (generate w req) s) = (calls s ++ l)%list /\
                        List.filter to_service_B l = []).
  { unfold after. rewrite generate_run. unfold fallback_outcome. rewrite Htok.
    destruct (file req); [|exists []; by rewrite app_nil_r].
    destruct (takes_A_first _); [|exists []; by rewrite app_nil_r]. cbv zeta.
    exists (if env_truthy (HUGGINGFACE_API_KEY w)
            then [hf_call w (fullPrompt req)] else []).
    split; [|by destruct (env_truthy (HUGGINGFACE_API_KEY w))].
    destruct (service_A_outcome w _); [destruct (disk_error w _)|];
      simpl; rewrite ?calls_failed_write; apply calls_sent. }
  destruct E as (l & E & Hl). by rewrite (calls_made_app _ _ _ E).
Qed.

(** C5: for a request to /generate without a service, whose first
    provider call fails: with REPLICATE_API_TOKEN set the second provider
    is called once and the request succeeds exactly when that call
    succeeds; without it the second provider is not called and the request
    fails.  And whatever the request, no call to the second provider is
    made without the token. *)
Theorem default_fallback_needs_credential w req s :
  (env_truthy (REPLICATE_API_TOKEN w) = false ->
   List.filter to_service_B (calls_made (generate w req) s) = []) /\
  (forall f e,
     file req = Some f ->
     truthy (service_field req) = false ->
     service_A_outcome w (fullPrompt req) = Rejected e ->
     let rc := replicate_call w (fullPrompt req) (JStr (uploadedImageUrl req f)) in
     (env_truthy (REPLICATE_API_TOKEN w) = true ->
      List.filter to_service_B (calls_made (generate w req) s) = [rc] /\
      respond (generate w req) s =
      Some (match replicate_api w rc with
            | Responded d =>
              completed_response req f (descriptor_location d) (JStr REPLICATE_LABEL)
            | Rejected e' => failure_response (message e')
            end) /\
      (forall r, respond (generate w req) s = Some r ->
                 (status r = 200 <-> succeeds (replicate_api w rc) = true) /\
                 (status r = 500 <-> succeeds (replicate_api w rc) = false))) /\
     (env_truthy (REPLICATE_API_TOKEN w) = false ->
      List.filter to_service_B (calls_made (generate w req) s) = [] /\
      respond (generate w req) s =
      Some (failure_response "No AI service configured properly"))).
Proof.
  split; [apply no_B_call_without_token|].
  intros f e Hf Hs HA rc.
  assert (Hfirst : takes_A_first (service_field req) = true)
    by (unfold takes_A_first; by rewrite Hs).
  pose proof (filter_B_after_A_failure w req f s e Hf Hfirst HA) as HB.
  pose proof (respond_after_A_failure w req f s e Hf Hfirst HA) as HR.
  fold rc in HB, HR.
  split; intros Htok; rewrite Htok in *; [|auto].
  split; [exact HB|]. split; [exact HR|].
  intros r Hr. rewrite HR in Hr. injection Hr as <-.
  destruct (replicate_api w rc); simpl; split; split; intros; congruence || lia.
Qed.

Lemma default_fallback_needs_credential_witness :
  let w := Sample.world (Some "hf_k") (Some "r8_t") (Rejected Sample.down)
                        (Responded Sample.descriptor) in
  let req := Sample.upload_request (Some Sample.dress) [] in
  (file req = Some Sample.dress /\
   truthy (service_field req) = false /\
   service_A_outcome w (fullPrompt req) = Rejected Sample.down /\
   env_truthy (REPLICATE_API_TOKEN w) = true) /\
  respond (generate w req) Sample.sys0 =
  Some (completed_response req Sample.dress
          (JStr "https://api.replicate.com/v1/predictions/p7x2")
          (JStr REPLICATE_LABEL)).
Proof.
  intros w req. split; [repeat split|].
  apply (proj2 (default_fallback_needs_credential w req Sample.sys0)
           Sample.dress Sample.down); reflexivity.
Defined.

(** ** The text-only route *)

(** The trace of [/generate-simple]: the first provider's call, when there
    is a prompt and the key is set, and nothing else. *)
Lemma generate_simple_calls w req s :
  calls_made (generate_simple w req) s =
  if truthy (Js.get "prompt" (body req)) && env_truthy (HUGGINGFACE_API_KEY w)
  then [hf_call w (Js.get "prompt" (body req))] else [].
Proof.
  apply calls_made_app. unfold after. rewrite generate_simple_run. cbv zeta.
  destruct (truthy _); [|simpl; by rewrite app_nil_r].
  destruct (service_A_outcome w _); [destruct (disk_error w _)|];
    simpl; rewrite ?calls_failed_write; apply calls_sent.
Qed.

(** C6: /generate-simple never calls the second provider; when the first
    provider's call fails the answer is 500 with [error], [details] and
    [setup], whatever REPLICATE_API_TOKEN holds; when it succeeds the
    answer carries [generatedImage], [prompt] and [service]. *)
Theorem generate_simple_service_A_only w req s :
  let prompt := Js.get "prompt" (body req) in
  (List.filter to_service_B (calls_made (generate_simple w req) s) = [] /\
   forallb to_service_A (calls_made (generate_simple w req) s) = true) /\
  (forall e,
     truthy prompt = true ->
     service_A_outcome w prompt = Rejected e ->
     respond (generate_simple w req) s =
     Some (mkResponse 500
             (JObj [("error", JStr "Failed to generate image");
                    ("details", JStr (message e));
                    ("setup",
                     JStr "Add HUGGINGFACE_API_KEY to .env file. Get free key at https://huggingface.co/settings/tokens")]))) /\
  (forall d,
     truthy prompt = true ->
     service_A_outcome w prompt = Responded d ->
     disk_error w (generated_path w) = None ->
     respond (generate_simple w req) s =
     Some (mkResponse 200
             (JObj [("message", JStr "Image generated successfully");
                    ("generatedImage", JStr (generated_url w req));
                    ("prompt", prompt);
                    ("service", JStr HF_LABEL)])) /\
     files (after (generate_simple w req) s) !! generated_path w = Some d).
Proof.
  intros prompt. split; [|split].
  - rewrite generate_simple_calls.
    by destruct (truthy _ && env_truthy _).
  - intros e Hp HA. unfold respond. rewrite generate_simple_run. cbv zeta.
    fold prompt. by rewrite Hp, HA.
  - intros d Hp HA Hd. unfold respond, after. rewrite generate_simple_run.
    cbv zeta. fold prompt. rewrite Hp, HA, Hd. simpl.
    split; [reflexivity | apply lookup_insert_eq].
Qed.

Lemma generate_simple_service_A_only_witness :
  let w := Sample.world None (Some "r8_t") (Responded Sample.png1)
                        (Responded Sample.descriptor) in
  let req := Sample.json_request [("prompt", JStr "red sneaker on white background")] in
  (truthy (Js.get "prompt" (body req)) = true /\
   service_A_outcome w (Js.get "prompt" (body req)) = Rejected HF_NOT_CONFIGURED /\
   env_truthy (REPLICATE_API_TOKEN w) = true) /\
  respond (generate_simple w req) Sample.sys0 =
  Some (simple_failure
          "Hugging Face API key not configured. Get free key at https://huggingface.co/settings/tokens").
Proof.
  intros w req. split; [repeat split|].
  apply (proj1 (proj2 (generate_simple_service_A_only w req Sample.sys0))
           HF_NOT_CONFIGURED); reflexivity.
Defined.

(** ** Names of generated files *)

Lemma string_app_length (s t : string) :
  String.length (s +:+ t) = (String.length s + String.length t)%nat.
Proof. induction s as [|c s IH]; simpl; [reflexivity | by rewrite IH]. Qed.

Lemma string_app_inv_tail (s1 s2 t : string) : s1 +:+ t = s2 +:+ t -> s1 = s2.
Proof.
  revert s2. induction s1 as [|c s1 IH]; intros [|c' s2] E; simpl in E.
  - reflexivity.
  - apply (f_equal String.length) in E.
    rewrite ?string_app_length in E. simpl in E.
    rewrite ?string_app_length in E. lia.
  - apply (f_equal String.length) in E.
    rewrite ?string_app_length in E. simpl in E.
    rewrite ?string_app_length in E. lia.
  - injection E as -> E. f_equal. by apply IH.
Qed.

(** The name of a generated file is a function of the clock alone: two
    names are equal exactly when the two clock readings are. *)
Lemma generated_filename_eq_iff w1 w2 :
  generated_filename w1 = generated_filename w2 <-> now w1 = now w2.
Proof.
  unfold generated_filename. split; [|by intros ->].
  intros E. apply String.app_inj in E. apply string_app_inv_tail in E.
  by apply (inj pretty).
Qed.

(** The storage engine's names, by contrast, carry the random number: at
    one clock reading and for one file part, two names are equal only when
    the two random numbers are. *)
Lemma storage_filename_random now rnd1 rnd2 file :
  Upload.storage_filename now rnd1 file = Upload.storage_filename now rnd2 file ->
  rnd1 = rnd2.
Proof.
  unfold Upload.storage_filename. intros E.
  do 2 apply String.app_inj in E. apply string_app_inv_tail in E.
  do 2 apply String.app_inj in E. by apply (inj pretty).
Qed.

(** C7: the code at two successful calls of /generate-simple within one
    clock tick: both responses name the same generated file, and the
    second call's bytes replace the first's on disk. *)
Theorem generated_names_collide_within_tick :
  let w1 := Sample.world (Some "hf_k") None (Responded Sample.png1)
                         (Rejected Sample.down) in
  let w2 := Sample.world (Some "hf_k") None (Responded Sample.png2)
                         (Rejected Sample.down) in
  let req := Sample.json_request [("prompt", JStr "red sneaker on white background")] in
  let s1 := after (generate_simple w1 req) Sample.sys0 in
  let s2 := after (generate_simple w2 req) s1 in
  let name := "http://localhost:3000/generated/generated-1730538000123.png" in
  now w1 = now w2 /\
  (Js.get "generatedImage" <$> (json <$> respond (generate_simple w1 req) Sample.sys0))
    = Some (JStr name) /\
  (Js.get "generatedImage" <$> (json <$> respond (generate_simple w2 req) s1))
    = Some (JStr name) /\
  files s1 !! "generated/generated-1730538000123.png" = Some Sample.png1 /\
  files s2 !! "generated/generated-1730538000123.png" = Some Sample.png2 /\
  Sample.png1 <> Sample.png2 /\
  files s2 = {[ "generated/generated-1730538000123.png" := Sample.png2 ]}.
Proof.
  repeat split; try (vm_compute; reflexivity).
  discriminate.
Qed.

(** ** Neither provider configured *)

(** With no credential at all a request makes no outbound call and writes
    no file. *)
Lemma unconfigured_generate_is_local w req s :
  env_truthy (HUGGINGFACE_API_KEY w) = false ->
  env_truthy (REPLICATE_API_TOKEN w) = false ->
  after (generate w req) s = s.
Proof.
  intros HA HB. unfold after. rewrite generate_run.
  unfold fallback_outcome, service_A_outcome. rewrite HA, HB.
  destruct (file req); [|reflexivity].
  by destruct (takes_A_first _).
Qed.

(** With neither credential configured the handler makes no outbound call
    and writes no file; a request that carries a stored upload and whose
    service is absent, empty or 'huggingface' is answered 500 with
    'No AI service configured properly' and the setup guidance for both
    providers; a request without a file is answered 400
    'No image file provided'. *)
Theorem unconfigured_generate_fails_locally w req s :
  env_truthy (HUGGINGFACE_API_KEY w) = false ->
  env_truthy (REPLICATE_API_TOKEN w) = false ->
  calls_made (generate w req) s = [] /\
  files (after (generate w req) s) = files s /\
  (forall f,
     file req = Some f ->
     takes_A_first (service_field req) = true ->
     respond (generate w req) s =
     Some (mkResponse 500
             (JObj [("error", JStr "Failed to generate product image");
                    ("details", JStr "No AI service configured properly");
                    ("setup", SETUP_GUIDE)]))) /\
  (file req = None ->
   respond (generate w req) s =
   Some (mkResponse 400 (JObj [("error", JStr "No image file provided")]))).
Proof.
  intros HA HB.
  pose proof (unconfigured_generate_is_local w req s HA HB) as Hlocal.
  split; [by apply calls_made_unchanged|].
  split; [by rewrite Hlocal|]. split.
  - intros f Hf Hs.
    assert (HR : service_A_outcome w (fullPrompt req) = Rejected HF_NOT_CONFIGURED)
      by (unfold service_A_outcome; by rewrite HA).
    rewrite (respond_after_A_failure w req f s _ Hf Hs HR). by rewrite HB.
  - intros Hf. unfold respond. by rewrite generate_run, Hf.
Qed.

Lemma unconfigured_generate_fails_locally_witness :
  let w := Sample.world None None (Rejected Sample.down) (Rejected Sample.down) in
  let req := Sample.upload_request (Some Sample.dress)
               [("prompt", JStr "red evening dress")] in
  (env_truthy (HUGGINGFACE_API_KEY w) = false /\
   env_truthy (REPLICATE_API_TOKEN w) = false /\
   file req = Some Sample.dress /\
   takes_A_first (service_field req) = true) /\
  calls_made (generate w req) Sample.sys0 = [] /\
  respond (generate w req) Sample.sys0 =
  Some (failure_response "No AI service configured properly").
Proof.
  intros w req. split; [repeat split|].
  pose proof (unconfigured_generate_fails_locally w req Sample.sys0
                eq_refl eq_refl) as (Hcalls & _ & Hfail & _).
  split; [exact Hcalls|].
  exact (Hfail Sample.dress eq_refl eq_refl).
Defined.

(** C8: the code at a request that carries a stored upload and names the
    service 'replicate', with neither credential configured: no outbound
    call is made, but the request does not fail: it is answered 200
    'completed', with no error, no setup guidance and no generated
    image. *)
Theorem unconfigured_explicit_service_completes :
  let w := Sample.world None None (Rejected Sample.down) (Rejected Sample.down) in
  let req := Sample.upload_request (Some Sample.dress)
               [("prompt", JStr "red evening dress"); ("service", JStr "replicate")] in
  env_truthy (HUGGINGFACE_API_KEY w) = false /\
  env_truthy (REPLICATE_API_TOKEN w) = false /\
  calls_made (generate w req) Sample.sys0 = [] /\
  exists r,
    respond (generate w req) Sample.sys0 = Some r /\
    status r = 200 /\
    Js.get "status" (json r) = JStr "completed" /\
    Js.get "error" (json r) = JUndefined /\
    Js.get "setup" (json r) = JUndefined /\
    Js.get "generatedImage" (json r) = JUndefined.
Proof.
  split; [reflexivity|]. split; [reflexivity|]. split; [reflexivity|].
  eexists. split; [vm_compute; reflexivity|]. repeat split.
Qed.

(** ** The prompt *)

(** [/generate] reads a request only through its origin, its file, its
    [service] field and the resolved prompt. *)
Lemma generate_ext w req req' s :
  origin req' = origin req ->
  file req' = file req ->
  service_field req' = service_field req ->
  fullPrompt req' = fullPrompt req ->
  generate w req' s = generate w req s.
Proof.
  intros Ho Hf Hs Hp. rewrite !generate_run.
  unfold fallback_outcome, completed_response, uploadedImageUrl, generated_url.
  by rewrite Ho, Hf, Hs, Hp.
Qed.

Lemma fullPrompt_not_empty req : fullPrompt req <> JStr "".
Proof.
  unfold fullPrompt, Js.or.
  destruct (truthy (Js.get "prompt" (body req))) eqn:E; [|discriminate].
  intros H. rewrite H in E. discriminate.
Qed.

Lemma generate_prompt_echo w req s r :
  respond (generate w req) s = Some r ->
  status r = 200 ->
  Js.get "prompt" (json r) = fullPrompt req.
Proof.
  unfold respond. rewrite generate_run. unfold fallback_outcome.
  destruct (file req); [|intros [= <-]; discriminate].
  destruct (takes_A_first _); [|by intros [= <-]]. cbv zeta.
  destruct (service_A_outcome w _); [destruct (disk_error w _)|];
    destruct (env_truthy (REPLICATE_API_TOKEN w));
    try destruct (replicate_api w _);
    intros [= <-]; (reflexivity || discriminate).
Qed.

(** C9: in /generate an empty prompt is handled as an absent one, the
    default prompt taking its place, and the prompt a successful response
    returns is never the empty string. *)
Theorem empty_prompt_is_default w req s :
  fullPrompt req <> JStr "" /\
  (forall r, respond (generate w req) s = Some r -> status r = 200 ->
             Js.get "prompt" (json r) = fullPrompt req /\
             Js.get "prompt" (json r) <> JStr "") /\
  (Js.get "prompt" (body req) = JStr "" ->
   fullPrompt req = JStr DEFAULT_PROMPT /\
   forall req',
     Js.get "prompt" (body req') = JUndefined ->
     protocol req' = protocol req -> host req' = host req ->
     file req' = file req -> service_field req' = service_field req ->
     fullPrompt req' = JStr DEFAULT_PROMPT /\
     generate w req' s = generate w req s).
Proof.
  split; [apply fullPrompt_not_empty|]. split.
  - intros r Hr H200. rewrite (generate_prompt_echo w req s r Hr H200).
    split; [reflexivity | apply fullPrompt_not_empty].
  - intros Hp.
    assert (E : fullPrompt req = JStr DEFAULT_PROMPT)
      by (unfold fullPrompt; by rewrite Hp).
    split; [exact E|]. intros req' Hp' Hproto Hhost Hf Hs.
    assert (E' : fullPrompt req' = JStr DEFAULT_PROMPT)
      by (unfold fullPrompt; by rewrite Hp').
    split; [exact E'|]. apply generate_ext; try assumption.
    + unfold origin. by rewrite Hproto, Hhost.
    + by rewrite E, E'.
Qed.

Lemma empty_prompt_is_default_witness :
  let w := Sample.world (Some "hf_k") None (Responded Sample.png1)
                        (Rejected Sample.down) in
  let req := Sample.upload_request (Some Sample.dress) [("prompt", JStr "")] in
  let req' := Sample.upload_request (Some Sample.dress) [] in
  (Js.get "prompt" (body req) = JStr "" /\
   Js.get "prompt" (body req') = JUndefined) /\
  fullPrompt req = JStr DEFAULT_PROMPT /\
  generate w req' Sample.sys0 = generate w req Sample.sys0.
Proof.
  intros w req req'. split; [repeat split|].
  pose proof (empty_prompt_is_default w req Sample.sys0) as (_ & _ & H).
  destruct (H eq_refl) as [Hd Hsame]. split; [exact Hd|].
  exact (proj2 (Hsame req' eq_refl eq_refl eq_refl eq_refl eq_refl)).
Defined.

(** ** What the second provider is sent *)

Lemma replicate_call_fields w prompt imageUrl :
  url (replicate_call w prompt imageUrl) = REPLICATE_URL /\
  input_field "human_img" (replicate_call w prompt imageUrl) =
    JStr "https://example.com/model.jpg" /\
  input_field "garm_img" (replicate_call w prompt imageUrl) = imageUrl /\
  input_field "garment_des" (replicate_call w prompt imageUrl) = prompt.
Proof. repeat split. Qed.

Lemma generateWithReplicate_calls w prompt imageUrl s :
  calls_made (generateWithReplicate w prompt imageUrl) s =
  if env_truthy (REPLICATE_API_TOKEN w)
  then [replicate_call w prompt imageUrl] else [].
Proof.
  apply calls_made_app. unfold after. rewrite generateWithReplicate_run.
  simpl. apply calls_sent.
Qed.

(** Every call [/generate] makes is the first provider's call or, on a
    request with a file and with the token set, the fallback call. *)
Lemma generate_calls w req s c :
  In c (calls_made (generate w req) s) ->
  c = hf_call w (fullPrompt req) \/
  exists f, file req = Some f /\
            env_truthy (REPLICATE_API_TOKEN w) = true /\
            c = replicate_call w (fullPrompt req) (JStr (uploadedImageUrl req f)).
Proof.
  assert (E : exists la lb,
             calls (after (generate w req) s) = (calls s ++ la ++ lb)%list /\
             (la = [] \/ la = [hf_call w (fullPrompt req)]) /\
             (lb = [] \/ exists f, file req = Some f /\
                 env_truthy (REPLICATE_API_TOKEN w) = true /\
                 lb = [replicate_call w (fullPrompt req)
                         (JStr (uploadedImageUrl req f))])).
  { unfold after. rewrite generate_run. unfold fallback_outcome.
    destruct (file req) as [f|];
      [|exists [], []; simpl; rewrite app_nil_r; auto].
    destruct (takes_A_first _);
      [|exists [], []; simpl; rewrite app_nil_r; auto]. cbv zeta.
    exists (if env_truthy (HUGGINGFACE_API_KEY w)
            then [hf_call w (fullPrompt req)] else []).
    assert (Hla : forall b : bool,
               (if b then [hf_call w (fullPrompt req)] else []) = [] \/
               (if b then [hf_call w (fullPrompt req)] else [])
                 = [hf_call w (fullPrompt req)])
      by (intros []; auto).
    destruct (service_A_outcome w _); [destruct (disk_error w _)|];
      destruct (env_truthy (REPLICATE_API_TOKEN w)) eqn:Etok;
      try destruct (replicate_api w _);
      first
        [ exists [replicate_call w (fullPrompt req) (JStr (uploadedImageUrl req f))];
          simpl; rewrite ?calls_failed_write, calls_sent, <- app_assoc;
          split; [reflexivity|]; split; [apply Hla|]; right; by exists f
        | exists []; simpl; rewrite ?calls_failed_write, calls_sent, app_nil_r;
          split; [reflexivity|]; split; [apply Hla|]; by left ]. }
  destruct E as (la & lb & E & Hla & Hlb).
  rewrite (calls_made_app _ _ _ E). intros Hin.
  apply in_app_or in Hin as [Hin|Hin].
  - destruct Hla as [->| ->]; simpl in Hin; [tauto|]. left. by destruct Hin.
  - destruct Hlb as [->|(f & Hf & Htok & ->)]; simpl in Hin; [tauto|].
    right. exists f. by destruct Hin as [<-|[]].
Qed.

(** C10: every call the second provider's client sends carries the fixed
    placeholder as [human_img], the image URL it was given as [garm_img]
    and the prompt as [garment_des]; in /generate these are the uploaded
    image's URL and the resolved prompt. *)
Theorem replicate_human_img_is_placeholder :
  (forall w prompt imageUrl s c,
     In c (calls_made (generateWithReplicate w prompt imageUrl) s) ->
     url c = REPLICATE_URL /\
     input_field "human_img" c = JStr "https://example.com/model.jpg" /\
     input_field "garm_img" c = imageUrl /\
     input_field "garment_des" c = prompt) /\
  (forall w req s c,
     In c (calls_made (generate w req) s) ->
     to_service_B c = true ->
     exists f, file req = Some f /\
       input_field "human_img" c = JStr "https://example.com/model.jpg" /\
       input_field "garm_img" c = JStr (uploadedImageUrl req f) /\
       input_field "garment_des" c = fullPrompt req).
Proof.
  split.
  - intros w prompt imageUrl s c. rewrite generateWithReplicate_calls.
    destruct (env_truthy (REPLICATE_API_TOKEN w)); simpl; [|tauto].
    intros [<-|[]]. apply replicate_call_fields.
  - intros w req s c Hin HB.
    destruct (generate_calls w req s c Hin) as [->|(f & Hf & _ & ->)].
    + by rewrite hf_call_not_B in HB.
    + exists f. split; [exact Hf|]. repeat split.
Qed.

Lemma replicate_human_img_is_placeholder_witness :
  let w := Sample.world (Some "hf_k") (Some "r8_t") (Rejected Sample.down)
                        (Responded Sample.descriptor) in
  let req := Sample.upload_request (Some Sample.dress)
               [("prompt", JStr "red evening dress")] in
  let c := replicate_call w (JStr "red evening dress")
             (JStr "http://localhost:3000/uploads/image-1730537999000-482911377.png") in
  (In c (calls_made (generate w req) Sample.sys0) /\ to_service_B c = true) /\
  exists f, file req = Some f /\
    input_field "human_img" c = JStr "https://example.com/model.jpg" /\
    input_field "garm_img" c = JStr (uploadedImageUrl req f) /\
    input_field "garment_des" c = fullPrompt req.
Proof.
  intros w req c.
  assert (Hin : In c (calls_made (generate w req) Sample.sys0))
    by (right; left; reflexivity).
  split; [split; [exact Hin | reflexivity]|].
  exact (proj2 replicate_human_img_is_placeholder w req Sample.sys0 c Hin eq_refl).
Defined.

(** ** The upload filter *)

Example extname_examples :
  map Path.extname ["dress.PNG"; "a/b.c/dress"; ".bashrc"; "x.tar.gz"; "..";
                    "dress."; "dir.d/"; "photo.pngx"]
  = [".PNG"; ""; ""; ".gz"; ""; "."; ".d"; ".pngx"].
Proof. reflexivity. Qed.

Example fileFilter_png :
  Upload.fileFilter {| fieldname := "image"; originalname := "Dress.PNG";
                       mimetype := "image/png" |} = CbOk true.
Proof. reflexivity. Qed.

Lemma starts_with_spec p s :
  Str.starts_with p s = true <-> exists post, s = p +:+ post.
Proof.
  revert s. induction p as [|a p IH]; intros s; simpl.
  - split; [intros _; by exists s | reflexivity].
  - destruct s as [|b s].
    + split; [discriminate | intros [post E]; discriminate].
    + rewrite andb_true_iff, IH, Ascii.eqb_eq. split.
      * intros [-> [post ->]]. by exists post.
      * intros [post [= -> ->]]. split; [reflexivity | by exists post].
Qed.

Lemma matches_at_spec r s :
  Regex.matches_at r s = true <->
  exists w, In w (Regex.words r) /\ exists post, s = w +:+ post.
Proof.
  induction r as [w|r1 IH1 r2 IH2]; simpl.
  - rewrite starts_with_spec. split.
    + intros H. exists w. auto.
    + intros (w' & [<-|[]] & H). exact H.
  - rewrite orb_true_iff, IH1, IH2. split.
    + intros [(w & Hw & H)|(w & Hw & H)]; exists w; rewrite in_app_iff; auto.
    + intros (w & Hw & H). apply in_app_iff in Hw as [Hw|Hw]; [left|right];
        exists w; auto.
Qed.

(** A pattern of this form tests true on exactly the strings in which one
    of its words occurs. *)
Lemma test_spec r s :
  Regex.test r s = true <-> exists w, In w (Regex.words r) /\ occurs_in w s.
Proof.
  induction s as [|c s IH]; simpl; rewrite orb_true_iff, matches_at_spec.
  - split.
    + intros [(w & Hw & post & E)|]; [|discriminate].
      exists w. split; [exact Hw|]. by exists "", post.
    + intros (w & Hw & pre & post & E). left. exists w. split; [exact Hw|].
      destruct pre; [by exists post | discriminate].
  - rewrite IH. split.
    + intros [(w & Hw & post & E)|(w & Hw & pre & post & E)]; exists w.
      * split; [exact Hw|]. by exists "", post.
      * split; [exact Hw|]. exists (String c pre), post. simpl. by rewrite E.
    + intros (w & Hw & pre & post & E). destruct pre as [|c' pre].
      * left. exists w. split; [exact Hw|]. by exists post.
      * right. exists w. split; [exact Hw|]. injection E as -> ->.
        by exists pre, post.
Qed.

(** The filter accepts exactly when a word of the pattern occurs in the
    declared media type and one occurs in the lower-cased extension. *)
Lemma fileFilter_accepts_iff allowed file :
  Upload.fileFilter_with allowed file = CbOk true <->
  (exists w, In w (Regex.words allowed) /\ occurs_in w (mimetype file)) /\
  (exists w, In w (Regex.words allowed) /\
             occurs_in w (Str.toLowerCase (Path.extname (originalname file)))).
Proof.
  unfold Upload.fileFilter_with. rewrite <- !test_spec.
  destruct (Regex.test allowed (mimetype file)),
           (Regex.test allowed (Str.toLowerCase _)); simpl;
    split; try tauto; try discriminate; intros [? ?]; discriminate.
Qed.

(** The verdict of the filter: it accepts, with [cb(null, true)], exactly
    when a word of the pattern occurs in the declared media type and one
    occurs in the lower-cased extension, and in every other case it fails
    with the error 'Only image files are allowed!'; it never answers
    [cb(null, false)]. *)
Theorem fileFilter_verdict allowed file :
  (Upload.fileFilter_with allowed file = CbOk true <->
   (exists w, In w (Regex.words allowed) /\ occurs_in w (mimetype file)) /\
   (exists w, In w (Regex.words allowed) /\
              occurs_in w (Str.toLowerCase (Path.extname (originalname file))))) /\
  (Upload.fileFilter_with allowed file <> CbOk true ->
   Upload.fileFilter_with allowed file =
   CbErr (new_Error "Only image files are allowed!")) /\
  Upload.fileFilter_with allowed file <> CbOk false.
Proof.
  split; [apply fileFilter_accepts_iff|].
  unfold Upload.fileFilter_with. destruct (_ && _); split; try done.
Qed.

(** An extension in which none of the words occurs is rejected, whatever
    media type is declared. *)
Lemma fileFilter_rejects allowed file :
  (forall w, In w (Regex.words allowed) ->
             ~ occurs_in w (Str.toLowerCase (Path.extname (originalname file)))) ->
  Upload.fileFilter_with allowed file =
  CbErr (new_Error "Only image files are allowed!").
Proof.
  intros Hnone. unfold Upload.fileFilter_with.
  destruct (Regex.test allowed (Str.toLowerCase _)) eqn:E.
  - apply test_spec in E as (w & Hw & Hocc). destruct (Hnone w Hw Hocc).
  - by rewrite andb_false_r.
Qed.

(** Each listed extension passes the extension test of the 2.0.0 server. *)
Lemma listed_extension_passes ext :
  In ext Upload.listed_extensions -> Regex.test Upload.allowedTypes ext = true.
Proof.
  simpl. intros [<-|[<-|[<-|[<-|[<-|[]]]]]]; reflexivity.
Qed.

(** C4: the code at a file named clip.gifv that declares image/gif: the
    lower-cased extension is .gifv, which is not one of the listed
    extensions, and both servers' filters accept the file. *)
Theorem fileFilter_accepts_unlisted_extension :
  let file := {| fieldname := "image"; originalname := "clip.gifv";
                 mimetype := "image/gif" |} in
  Str.toLowerCase (Path.extname (originalname file)) = ".gifv" /\
  ~ In ".gifv" Upload.listed_extensions /\
  Upload.fileFilter file = CbOk true /\
  Upload.fileFilter_v1 file = CbOk true.
Proof.
  repeat split; try reflexivity.
  simpl. intros H. repeat destruct H as [H|H]; try discriminate H. exact H.
Qed.

(** A rejected file part reaches the last middleware, which answers 500
    with the filter's message. *)
Lemma rejected_upload_response allowed file e :
  Upload.fileFilter_with allowed file = CbErr e ->
  error_middleware e =
  mkResponse 500 (JObj [("error", JStr "Only image files are allowed!")]).
Proof.
  unfold Upload.fileFilter_with. destruct (_ && _); [discriminate|].
  by intros [= <-].
Qed.

(** * Further properties of the routes *)

(** ** Traces and files of [/generate] *)

(** The exact trace of a run of [/generate]. *)
Lemma generate_calls_eq w req s :
  calls (after (generate w req) s) =
  (calls s ++
   match file req with
   | None => []
   | Some f =>
     if takes_A_first (service_field req) then
       (if env_truthy (HUGGINGFACE_API_KEY w)
        then [hf_call w (fullPrompt req)] else []) ++
       (if fallback_entered w req && env_truthy (REPLICATE_API_TOKEN w)
        then [replicate_call w (fullPrompt req) (JStr (uploadedImageUrl req f))]
        else [])
     else []
   end)%list.
Proof.
  unfold after. rewrite generate_run. unfold fallback_outcome, fallback_entered.
  destruct (file req) as [f|]; [|simpl; by rewrite app_nil_r].
  destruct (takes_A_first _); [|simpl; by rewrite app_nil_r]. cbv zeta.
  destruct (service_A_outcome w _); [destruct (disk_error w _)|];
    destruct (env_truthy (REPLICATE_API_TOKEN w));
    try destruct (replicate_api w _);
    simpl; rewrite ?calls_failed_write, calls_sent, ?app_nil_r, <- ?app_assoc; reflexivity.
Qed.

Lemma files_failed_write_sent w filepath buffer b c s :
  files (left_by_failed_write w filepath buffer (sent b c s))
  = files (left_by_failed_write w filepath buffer s).
Proof.
  unfold left_by_failed_write.
  destruct (disk_written w filepath); simpl; by rewrite files_sent.
Qed.

(** A failed write changes nothing but the file it was writing, and
    removes no file. *)
Lemma failed_write_frame w filepath buffer s p :
  (p <> filepath ->
   files (left_by_failed_write w filepath buffer s) !! p = files s !! p) /\
  (is_Some (files s !! p) ->
   is_Some (files (left_by_failed_write w filepath buffer s) !! p)).
Proof.
  unfold left_by_failed_write.
  destruct (disk_written w filepath) as [n|]; simpl; [|by split].
  split.
  - intros Hp. by apply lookup_insert_ne.
  - intros Hsome. destruct (decide (filepath = p)) as [->|Hne].
    + rewrite lookup_insert_eq. eauto.
    + by rewrite lookup_insert_ne.
Qed.

(** The files a run of [/generate] leaves. *)
Lemma generate_files_eq w req s :
  files (after (generate w req) s) =
  match file req, service_A_outcome w (fullPrompt req),
        disk_error w (generated_path w) with
  | Some _, Responded d, None =>
    if takes_A_first (service_field req)
    then <[generated_path w := d]> (files s) else files s
  | Some _, Responded d, Some _ =>
    if takes_A_first (service_field req)
    then files (left_by_failed_write w (generated_path w) d s) else files s
  | _, _, _ => files s
  end.
Proof.
  unfold after. rewrite generate_run. unfold fallback_outcome.
  destruct (file req) as [f|]; [|reflexivity].
  destruct (takes_A_first _);
    [|by destruct (service_A_outcome w (fullPrompt req)),
                  (disk_error w (generated_path w))]. cbv zeta.
  destruct (service_A_outcome w _); [destruct (disk_error w _)|];
    destruct (env_truthy (REPLICATE_API_TOKEN w));
    try destruct (replicate_api w _);
    simpl; rewrite ?files_failed_write_sent, ?files_sent; reflexivity.
Qed.

Lemma generate_simple_files_eq w req s :
  files (after (generate_simple w req) s) =
  match service_A_outcome w (Js.get "prompt" (body req)),
        disk_error w (generated_path w) with
  | Responded d, None =>
    if truthy (Js.get "prompt" (body req))
    then <[generated_path w := d]> (files s) else files s
  | Responded d, Some _ =>
    if truthy (Js.get "prompt" (body req))
    then files (left_by_failed_write w (generated_path w) d s) else files s
  | _, _ => files s
  end.
Proof.
  unfold after. rewrite generate_simple_run. cbv zeta.
  destruct (truthy _);
    [|by destruct (service_A_outcome w (Js.get "prompt" (body req))),
                  (disk_error w (generated_path w))].
  destruct (service_A_outcome w _); [destruct (disk_error w _)|];
    simpl; rewrite ?files_failed_write_sent, ?files_sent; reflexivity.
Qed.

(** A run of [/generate] only appends to the trace.  What it adds is the
    first provider's call or nothing, followed by the second provider's
    call or nothing: at most one call to each provider, never the same
    call twice, and wherever the second provider's call stands in the
    added calls, nothing follows it and at most the first provider's call
    precedes it. *)
Theorem generate_no_retry w req s :
  calls (after (generate w req) s) = (calls s ++ calls_made (generate w req) s)%list /\
  (exists la lb,
     calls_made (generate w req) s = (la ++ lb)%list /\
     (la = [] \/ la = [hf_call w (fullPrompt req)]) /\
     (lb = [] \/
      exists f, file req = Some f /\
                lb = [replicate_call w (fullPrompt req)
                        (JStr (uploadedImageUrl req f))])) /\
  (List.length (List.filter to_service_A (calls_made (generate w req) s)) <= 1)%nat /\
  (List.length (List.filter to_service_B (calls_made (generate w req) s)) <= 1)%nat /\
  (forall pre c post,
     calls_made (generate w req) s = (pre ++ c :: post)%list ->
     to_service_B c = true ->
     post = [] /\ (pre = [] \/ pre = [hf_call w (fullPrompt req)])).
Proof.
  pose proof (generate_calls_eq w req s) as E.
  rewrite (calls_made_app _ _ _ E). split; [exact E|]. clear E.
  assert (Hshape : exists la lb,
    match file req with
    | Some f =>
      if takes_A_first (service_field req)
      then ((if env_truthy (HUGGINGFACE_API_KEY w)
             then [hf_call w (fullPrompt req)] else []) ++
            (if fallback_entered w req && env_truthy (REPLICATE_API_TOKEN w)
             then [replicate_call w (fullPrompt req)
                     (JStr (uploadedImageUrl req f))]
             else []))%list
      else []
    | None => []
    end = (la ++ lb)%list /\
    (la = [] \/ la = [hf_call w (fullPrompt req)]) /\
    (lb = [] \/
     exists f, file req = Some f /\
               lb = [replicate_call w (fullPrompt req)
                       (JStr (uploadedImageUrl req f))])).
  { destruct (file req) as [f|]; [|exists [], []; auto].
    destruct (takes_A_first _); [|exists [], []; auto].
    eexists _, _. split; [reflexivity|]. split.
    - destruct (env_truthy (HUGGINGFACE_API_KEY w)); auto.
    - destruct (_ && _); [right; by exists f | by left]. }
  destruct Hshape as (la & lb & -> & Hla & Hlb).
  split; [by exists la, lb|].
  destruct Hla as [->| ->], Hlb as [->|(f & _ & ->)]; simpl;
    (split; [lia|]); (split; [lia|]); intros pre c post Epre HB.
  - by destruct pre.
  - destruct pre as [|x [|y pre]]; simplify_eq/=; auto.
  - destruct pre as [|x [|y pre]]; simplify_eq/=.
  - destruct pre as [|x [|y [|z pre]]]; simplify_eq/=; auto.
Qed.

(** When the first provider answers and its image is written, the second
    provider is not called, whether or not its token is set: the run makes
    the single call to the first provider and writes the single file. *)
Theorem generate_success_skips_fallback w req f s d :
  file req = Some f ->
  takes_A_first (service_field req) = true ->
  service_A_outcome w (fullPrompt req) = Responded d ->
  disk_error w (generated_path w) = None ->
  calls_made (generate w req) s = [hf_call w (fullPrompt req)] /\
  files (after (generate w req) s) = <[generated_path w := d]> (files s) /\
  respond (generate w req) s =
  Some (completed_response req f (JStr (generated_url w req)) (JStr HF_LABEL)).
Proof.
  intros Hf Hs HA Hd. split; [|split].
  - apply calls_made_app. rewrite generate_calls_eq, Hf, Hs.
    unfold fallback_entered. rewrite HA, Hd. simpl.
    unfold service_A_outcome in HA.
    destruct (env_truthy (HUGGINGFACE_API_KEY w)); [reflexivity | discriminate].
  - by rewrite generate_files_eq, Hf, HA, Hd, Hs.
  - unfold respond. rewrite generate_run, Hf, Hs. cbv zeta. by rewrite HA, Hd.
Qed.

Lemma generate_success_skips_fallback_witness :
  let w := Sample.world (Some "hf_k") (Some "r8_t") (Responded Sample.png1)
                        (Responded Sample.descriptor) in
  let req := Sample.upload_request (Some Sample.dress) [] in
  (file req = Some Sample.dress /\
   takes_A_first (service_field req) = true /\
   service_A_outcome w (fullPrompt req) = Responded Sample.png1 /\
   disk_error w (generated_path w) = None /\
   env_truthy (REPLICATE_API_TOKEN w) = true) /\
  calls_made (generate w req) Sample.sys0 = [hf_call w (fullPrompt req)].
Proof.
  intros w req. split; [repeat split|].
  apply (generate_success_skips_fallback w req Sample.dress Sample.sys0 Sample.png1);
    reflexivity.
Defined.

(** Once it is entered, the handler of either generation route leaves
    every file but the one at the generated path as it was: it deletes
    nothing, and the upload that the middleware stored under uploads/
    before the handler of [/generate] was entered is not touched. *)
Theorem generation_file_frame w req s :
  (forall p, p <> generated_path w ->
     files (after (generate w req) s) !! p = files s !! p /\
     files (after (generate_simple w req) s) !! p = files s !! p) /\
  (forall name,
     files (after (generate w req) s) !! ("uploads/" +:+ name)
       = files s !! ("uploads/" +:+ name) /\
     files (after (generate_simple w req) s) !! ("uploads/" +:+ name)
       = files s !! ("uploads/" +:+ name)) /\
  (forall p, is_Some (files s !! p) ->
     is_Some (files (after (generate w req) s) !! p) /\
     is_Some (files (after (generate_simple w req) s) !! p)).
Proof.
  assert (Hframe : forall p, p <> generated_path w ->
     files (after (generate w req) s) !! p = files s !! p /\
     files (after (generate_simple w req) s) !! p = files s !! p).
  { intros p Hp. rewrite generate_files_eq, generate_simple_files_eq. split.
    - destruct (file req), (service_A_outcome w (fullPrompt req)),
        (disk_error w (generated_path w)), (takes_A_first (service_field req));
        try reflexivity.
      + by apply failed_write_frame.
      + by apply lookup_insert_ne.
    - destruct (service_A_outcome w (Js.get "prompt" (body req))),
        (disk_error w (generated_path w)), (truthy (Js.get "prompt" (body req)));
        try reflexivity.
      + by apply failed_write_frame.
      + by apply lookup_insert_ne. }
  split; [exact Hframe|]. split.
  - intros name. apply Hframe. discriminate.
  - intros p Hsome. rewrite generate_files_eq, generate_simple_files_eq. split.
    + destruct (file req), (service_A_outcome w (fullPrompt req)),
        (disk_error w (generated_path w)), (takes_A_first (service_field req));
        try exact Hsome.
      * by apply failed_write_frame.
      * destruct (decide (generated_path w = p)) as [->|Hne].
        -- rewrite lookup_insert_eq. eauto.
        -- by rewrite lookup_insert_ne.
    + destruct (service_A_outcome w (Js.get "prompt" (body req))),
        (disk_error w (generated_path w)), (truthy (Js.get "prompt" (body req)));
        try exact Hsome.
      * by apply failed_write_frame.
      * destruct (decide (generated_path w = p)) as [->|Hne].
        -- rewrite lookup_insert_eq. eauto.
        -- by rewrite lookup_insert_ne.
Qed.

Lemma generation_file_frame_witness :
  let w := Sample.world (Some "hf_k") None (Responded Sample.png1)
                        (Rejected Sample.down) in
  let req := Sample.upload_request (Some Sample.dress) [] in
  let s := mkSys {[ "uploads/image-1730537999000-482911377.png" := Sample.png2 ]} [] in
  let p := "uploads/image-1730537999000-482911377.png" in
  (p <> generated_path w /\ files s !! p = Some Sample.png2) /\
  files (after (generate w req) s) !! p = files s !! p.
Proof.
  intros w req s p.
  assert (Hne : p <> generated_path w) by discriminate.
  split; [split; [exact Hne | reflexivity]|].
  exact (proj1 (proj1 (generation_file_frame w req s) p Hne)).
Defined.

(** ** Responses of [/generate] *)

(** No exception leaves [/generate]: it answers 200, 400 or 500; 400
    exactly when the request has no file; every 500 carries a [details]
    string and the setup guide for both providers; and 200 goes with
    status 'completed'. *)
Theorem generate_answer_shape w req s :
  exists r,
    respond (generate w req) s = Some r /\
    (status r = 200 \/ status r = 400 \/ status r = 500) /\
    (status r = 400 <-> file req = None) /\
    (status r = 500 ->
     Js.get "setup" (json r) = SETUP_GUIDE /\
     Js.get "error" (json r) = JStr "Failed to generate product image" /\
     exists d, Js.get "details" (json r) = JStr d) /\
    (status r = 200 <-> completed r = true).
Proof.
  unfold respond. rewrite generate_run. unfold fallback_outcome.
  destruct (file req) as [f|].
  - destruct (takes_A_first _); cbv zeta;
      [destruct (service_A_outcome w _); [destruct (disk_error w _)|];
       destruct (env_truthy (REPLICATE_API_TOKEN w));
       try destruct (replicate_api w _)|];
      eexists; (split; [reflexivity|]); simpl; unfold completed; simpl;
      repeat split; try (intros; (discriminate || lia)); eauto.
  - eexists. split; [reflexivity|]. simpl. unfold completed. simpl.
    repeat split; try (intros; (discriminate || lia)); eauto.
Qed.

(** No exception leaves [/generate-simple] either: it answers 200, 400 or
    500, and 400 exactly when the prompt is missing or falsy; a 200 echoes
    the prompt as it was received. *)
Theorem generate_simple_answer_shape w req s :
  exists r,
    respond (generate_simple w req) s = Some r /\
    (status r = 200 \/ status r = 400 \/ status r = 500) /\
    (status r = 400 <-> truthy (Js.get "prompt" (body req)) = false) /\
    (status r = 400 -> json r = JObj [("error", JStr "Prompt is required")]) /\
    (status r = 200 ->
     Js.get "prompt" (json r) = Js.get "prompt" (body req) /\
     Js.get "service" (json r) = JStr HF_LABEL).
Proof.
  unfold respond. rewrite generate_simple_run. cbv zeta.
  destruct (truthy _) eqn:Hp;
    [destruct (service_A_outcome w _); [destruct (disk_error w _)|]|];
    eexists; (split; [reflexivity|]); simpl;
    repeat split; try (intros; (discriminate || lia)); eauto.
Qed.

(** The service label of a 200 answer names the provider whose output the
    answer carries: with the first provider's label the location is the
    URL of the file just written with that provider's bytes; with the
    second provider's label it is read off the descriptor that provider
    returned, after the one call to it.  Under the second label the files
    are as they were when the first provider's call failed, and what the
    failed write left when the first provider answered and the write
    threw. *)
Theorem generate_label_names_producer w req f s r :
  file req = Some f ->
  takes_A_first (service_field req) = true ->
  respond (generate w req) s = Some r ->
  status r = 200 ->
  (Js.get "service" (json r) = JStr HF_LABEL /\
   Js.get "generatedImage" (json r) = JStr (generated_url w req) /\
   (exists d, service_A_outcome w (fullPrompt req) = Responded d /\
              files (after (generate w req) s) !! generated_path w = Some d) /\
   List.filter to_service_B (calls_made (generate w req) s) = []) \/
  (Js.get "service" (json r) = JStr REPLICATE_LABEL /\
   (exists d,
      replicate_api w (replicate_call w (fullPrompt req)
                         (JStr (uploadedImageUrl req f))) = Responded d /\
      Js.get "generatedImage" (json r) = descriptor_location d) /\
   List.filter to_service_B (calls_made (generate w req) s) =
   [replicate_call w (fullPrompt req) (JStr (uploadedImageUrl req f))] /\
   ((exists e, service_A_outcome w (fullPrompt req) = Rejected e /\
               files (after (generate w req) s) = files s) \/
    (exists d e,
       service_A_outcome w (fullPrompt req) = Responded d /\
       disk_error w (generated_path w) = Some e /\
       files (after (generate w req) s)
       = files (left_by_failed_write w (generated_path w) d s)))).
Proof.
  intros Hf Hs.
  rewrite (calls_made_app _ _ _ (generate_calls_eq w req s)).
  rewrite generate_files_eq. unfold respond. rewrite generate_run.
  rewrite Hf, Hs. unfold fallback_outcome, fallback_entered. cbv zeta.
  destruct (service_A_outcome w (fullPrompt req)) as [d|e];
    [destruct (disk_error w (generated_path w)) as [e|]|];
    destruct (env_truthy (REPLICATE_API_TOKEN w));
    try destruct (replicate_api w _) as [d'|e'];
    intros [= <-] H200; try discriminate H200;
    first
      [ left; split; [reflexivity|]; split; [reflexivity|]; split;
        [exists d; split; [reflexivity | apply lookup_insert_eq]|];
        by destruct (env_truthy (HUGGINGFACE_API_KEY w))
      | right; split; [reflexivity|]; split; [by exists d'|];
        split; [by destruct (env_truthy (HUGGINGFACE_API_KEY w))|];
        first [ left; by exists e | right; by exists d, e ] ].
Qed.

Lemma generate_label_names_producer_witness :
  let w := Sample.world (Some "hf_k") (Some "r8_t") (Rejected Sample.down)
                        (Responded Sample.descriptor) in
  let req := Sample.upload_request (Some Sample.dress) [] in
  let r := completed_response req Sample.dress
             (JStr "https://api.replicate.com/v1/predictions/p7x2")
             (JStr REPLICATE_LABEL) in
  (file req = Some Sample.dress /\
   takes_A_first (service_field req) = true /\
   respond (generate w req) Sample.sys0 = Some r /\
   status r = 200) /\
  Js.get "service" (json r) = JStr REPLICATE_LABEL /\
  List.filter to_service_B (calls_made (generate w req) Sample.sys0) =
  [replicate_call w (fullPrompt req) (JStr (uploadedImageUrl req Sample.dress))].
Proof.
  intros w req r. split; [repeat split|].
  destruct (generate_label_names_producer w req Sample.dress Sample.sys0 r
              eq_refl eq_refl eq_refl eq_refl) as [(H & _)|(H & _ & Hcalls & _)].
  - discriminate H.
  - split; [exact H | exact Hcalls].
Defined.

(** ** Failure paths *)

(** A failed write of the first provider's image is handled like a failed
    call in [/generate]: with the token set the second provider is called
    and its answer decides the response; without it the answer is the 500
    'No AI service configured properly'.  In [/generate-simple] the same
    failure is answered 500 with the disk error's message.  On both routes
    the files are what the failed write left: unchanged when the file
    could not be opened, and otherwise the generated path holds the bytes
    written before the error, a truncated file that no answer names. *)
Theorem disk_failure_paths w req f s d e :
  file req = Some f ->
  takes_A_first (service_field req) = true ->
  service_A_outcome w (fullPrompt req) = Responded d ->
  disk_error w (generated_path w) = Some e ->
  let rc := replicate_call w (fullPrompt req) (JStr (uploadedImageUrl req f)) in
  respond (generate w req) s =
  Some (if env_truthy (REPLICATE_API_TOKEN w) then
          match replicate_api w rc with
          | Responded d' =>
            completed_response req f (descriptor_location d') (JStr REPLICATE_LABEL)
          | Rejected e' => failure_response (message e')
          end
        else failure_response "No AI service configured properly") /\
  calls_made (generate w req) s =
  (hf_call w (fullPrompt req) ::
   if env_truthy (REPLICATE_API_TOKEN w) then [rc] else []) /\
  files (after (generate w req) s) =
  match disk_written w (generated_path w) with
  | None => files s
  | Some n => <[generated_path w := take n d]> (files s)
  end /\
  (forall req' d',
     truthy (Js.get "prompt" (body req')) = true ->
     service_A_outcome w (Js.get "prompt" (body req')) = Responded d' ->
     respond (generate_simple w req') s = Some (simple_failure (message e)) /\
     files (after (generate_simple w req') s) =
     match disk_written w (generated_path w) with
     | None => files s
     | Some n => <[generated_path w := take n d']> (files s)
     end).
Proof.
  intros Hf Hs HA Hd rc.
  assert (Hkey : env_truthy (HUGGINGFACE_API_KEY w) = true).
  { unfold service_A_outcome in HA.
    destruct (env_truthy (HUGGINGFACE_API_KEY w)); [reflexivity | discriminate]. }
  assert (Hleft : forall b,
    files (left_by_failed_write w (generated_path w) b s) =
    match disk_written w (generated_path w) with
    | None => files s
    | Some n => <[generated_path w := take n b]> (files s)
    end).
  { intros b. unfold left_by_failed_write.
    by destruct (disk_written w (generated_path w)). }
  split; [|split; [|split]].
  - unfold respond. rewrite generate_run, Hf, Hs. cbv zeta. rewrite HA, Hd.
    unfold fallback_outcome. fold rc.
    destruct (env_truthy (REPLICATE_API_TOKEN w)); [|reflexivity].
    by destruct (replicate_api w rc).
  - apply calls_made_app. rewrite generate_calls_eq, Hf, Hs, Hkey.
    unfold fallback_entered. rewrite HA, Hd. fold rc.
    by destruct (env_truthy (REPLICATE_API_TOKEN w)).
  - by rewrite generate_files_eq, Hf, HA, Hd, Hs, Hleft.
  - intros req' d' Hp HA'. split.
    + unfold respond. rewrite generate_simple_run. cbv zeta.
      by rewrite Hp, HA', Hd.
    + by rewrite generate_simple_files_eq, HA', Hd, Hp, Hleft.
Qed.

Lemma disk_failure_paths_witness :
  let w := {| HUGGINGFACE_API_KEY := Some "hf_k";
              REPLICATE_API_TOKEN := Some "r8_t";
              now := 1730538000123;
              huggingface_api := fun _ => Responded Sample.png1;
              replicate_api := fun _ => Responded Sample.descriptor;
              disk_error := fun _ => Some (new_Error "ENOSPC: no space left on device, write");
              disk_written := fun _ => Some 4%nat |} in
  let req := Sample.upload_request (Some Sample.dress) [] in
  (file req = Some Sample.dress /\
   takes_A_first (service_field req) = true /\
   service_A_outcome w (fullPrompt req) = Responded Sample.png1 /\
   disk_error w (generated_path w)
     = Some (new_Error "ENOSPC: no space left on device, write")) /\
  respond (generate w req) Sample.sys0 =
  Some (completed_response req Sample.dress
          (JStr "https://api.replicate.com/v1/predictions/p7x2")
          (JStr REPLICATE_LABEL)) /\
  files (after (generate w req) Sample.sys0) =
  <[generated_path w := [x89; x50; x4e; x47]]> (files Sample.sys0).
Proof.
  intros w req. split; [repeat split|].
  pose proof (disk_failure_paths w req Sample.dress Sample.sys0 Sample.png1
                (new_Error "ENOSPC: no space left on device, write")
                eq_refl eq_refl eq_refl eq_refl) as (Hr & _ & Hfiles & _).
  split; [exact Hr | exact Hfiles].
Defined.

(** The first provider's error message never reaches the caller of
    [/generate]: the [details] of a 500 are either the fixed text
    'No AI service configured properly', also when the first provider was
    configured and failed remotely, or the message of the second
    provider's error.  [/generate-simple] does report it. *)
Theorem generate_hides_first_error w req f s e :
  file req = Some f ->
  takes_A_first (service_field req) = true ->
  service_A_outcome w (fullPrompt req) = Rejected e ->
  (env_truthy (REPLICATE_API_TOKEN w) = false ->
   respond (generate w req) s =
   Some (failure_response "No AI service configured properly")) /\
  (forall e',
     env_truthy (REPLICATE_API_TOKEN w) = true ->
     replicate_api w (replicate_call w (fullPrompt req)
                        (JStr (uploadedImageUrl req f))) = Rejected e' ->
     respond (generate w req) s = Some (failure_response (message e'))) /\
  (forall req',
     truthy (Js.get "prompt" (body req')) = true ->
     Js.get "prompt" (body req') = fullPrompt req ->
     respond (generate_simple w req') s = Some (simple_failure (message e))).
Proof.
  intros Hf Hs HA.
  pose proof (respond_after_A_failure w req f s e Hf Hs HA) as HR.
  split; [|split].
  - intros Htok. by rewrite HR, Htok.
  - intros e' Htok HB. by rewrite HR, Htok, HB.
  - intros req' Hp Heq. unfold respond. rewrite generate_simple_run. cbv zeta.
    by rewrite Hp, Heq, HA.
Qed.

Lemma generate_hides_first_error_witness :
  let w := Sample.world (Some "hf_k") None (Rejected Sample.down)
                        (Rejected Sample.down) in
  let req := Sample.upload_request (Some Sample.dress) [] in
  (file req = Some Sample.dress /\
   takes_A_first (service_field req) = true /\
   service_A_outcome w (fullPrompt req) = Rejected Sample.down /\
   env_truthy (HUGGINGFACE_API_KEY w) = true /\
   env_truthy (REPLICATE_API_TOKEN w) = false) /\
  respond (generate w req) Sample.sys0 =
  Some (failure_response "No AI service configured properly").
Proof.
  intros w req. split; [repeat split|].
  exact (proj1 (generate_hides_first_error w req Sample.dress Sample.sys0
                  Sample.down eq_refl eq_refl eq_refl) eq_refl).
Defined.

(** ** The service field *)

(** [/generate] reads the [service] field only through the test
    [!service || service === 'huggingface']: two requests that agree on
    that test, and on origin, file and prompt, run identically.  So
    'huggingface', the empty string and no service at all are one case,
    and every other value is another. *)
Theorem service_read_through_test w req req' s :
  takes_A_first (service_field req') = takes_A_first (service_field req) ->
  protocol req' = protocol req ->
  host req' = host req ->
  file req' = file req ->
  Js.get "prompt" (body req') = Js.get "prompt" (body req) ->
  generate w req' s = generate w req s.
Proof.
  intros Hs Hproto Hhost Hf Hp. rewrite !generate_run.
  unfold fallback_outcome, completed_response, uploadedImageUrl, generated_url,
    fullPrompt, origin.
  by rewrite Hs, Hproto, Hhost, Hf, Hp.
Qed.

Lemma service_read_through_test_witness :
  let w := Sample.world (Some "hf_k") (Some "r8_t") (Rejected Sample.down)
                        (Responded Sample.descriptor) in
  let req := Sample.upload_request (Some Sample.dress) [] in
  let req' := Sample.upload_request (Some Sample.dress)
                [("service", JStr "huggingface")] in
  takes_A_first (service_field req') = takes_A_first (service_field req) /\
  generate w req' Sample.sys0 = generate w req Sample.sys0.
Proof.
  intros w req req'. split; [reflexivity|].
  exact (service_read_through_test w req req' Sample.sys0
           eq_refl eq_refl eq_refl eq_refl eq_refl).
Defined.

(** Every [service] value that is truthy and not exactly 'huggingface'
    (another provider's name, another spelling) skips both providers:
    the run makes no call, writes no file and answers 200 'completed'
    with [generatedImage] and [service] undefined, whatever the world. *)
Theorem other_service_skips_providers w req f s :
  file req = Some f ->
  truthy (service_field req) = true ->
  service_field req <> JStr "huggingface" ->
  generate w req s = (Val (completed_response req f JUndefined JUndefined), s) /\
  calls_made (generate w req) s = [] /\
  Js.get "generatedImage" (json (completed_response req f JUndefined JUndefined))
    = JUndefined.
Proof.
  intros Hf Ht Hne.
  assert (Hs : takes_A_first (service_field req) = false).
  { unfold takes_A_first. rewrite Ht. simpl.
    destruct (service_field req) as [| | | |sv| |]; try reflexivity. simpl.
    destruct (String.eqb sv "huggingface") eqn:E; [|reflexivity].
    apply String.eqb_eq in E. by subst. }
  assert (E : generate w req s =
              (Val (completed_response req f JUndefined JUndefined), s))
    by by rewrite generate_run, Hf, Hs.
  split; [exact E|]. split; [|reflexivity].
  apply calls_made_unchanged. unfold after. by rewrite E.
Qed.

Lemma other_service_skips_providers_witness :
  let w := Sample.world (Some "hf_k") (Some "r8_t") (Responded Sample.png1)
                        (Responded Sample.descriptor) in
  let req := Sample.upload_request (Some Sample.dress)
               [("service", JStr "Huggingface")] in
  (file req = Some Sample.dress /\
   truthy (service_field req) = true /\
   service_field req <> JStr "huggingface") /\
  calls_made (generate w req) Sample.sys0 = [].
Proof.
  intros w req.
  assert (Hne : service_field req <> JStr "huggingface") by discriminate.
  split; [repeat split; exact Hne|].
  exact (proj1 (proj2 (other_service_skips_providers w req Sample.dress
                         Sample.sys0 eq_refl eq_refl Hne))).
Defined.

(** ** What goes out to the providers *)

(** A client whose credential is missing or empty throws its
    configuration error without sending anything; a client whose
    credential is set sends exactly one call, with the credential in the
    Authorization header, and returns the provider's answer or rethrows
    the provider's error unchanged.  Neither client writes a file. *)
Theorem clients_fail_before_calling w prompt imageBase64 imageUrl s :
  (if env_truthy (HUGGINGFACE_API_KEY w) then
     calls_made (generateWithHuggingFace w prompt imageBase64) s =
       [mkCall HUGGINGFACE_URL (JObj [("inputs", prompt)])
               ("Bearer " +:+ env_string (HUGGINGFACE_API_KEY w))] /\
     outcome (generateWithHuggingFace w prompt imageBase64) s =
       match huggingface_api w (hf_call w prompt) with
       | Responded d => Val d
       | Rejected e => Exn e
       end
   else
     calls_made (generateWithHuggingFace w prompt imageBase64) s = [] /\
     outcome (generateWithHuggingFace w prompt imageBase64) s =
       Exn (new_Error "Hugging Face API key not configured. Get free key at https://huggingface.co/settings/tokens")) /\
  (if env_truthy (REPLICATE_API_TOKEN w) then
     calls_made (generateWithReplicate w prompt imageUrl) s =
       [replicate_call w prompt imageUrl] /\
     authorization (replicate_call w prompt imageUrl) =
       "Token " +:+ env_string (REPLICATE_API_TOKEN w) /\
     outcome (generateWithReplicate w prompt imageUrl) s =
       match replicate_api w (replicate_call w prompt imageUrl) with
       | Responded d => Val d
       | Rejected e => Exn e
       end
   else
     calls_made (generateWithReplicate w prompt imageUrl) s = [] /\
     outcome (generateWithReplicate w prompt imageUrl) s =
       Exn (new_Error "Replicate API token not configured. Get free credits at https://replicate.com")) /\
  files (after (generateWithHuggingFace w prompt imageBase64) s) = files s /\
  files (after (generateWithReplicate w prompt imageUrl) s) = files s.
Proof.
  assert (HcA : calls_made (generateWithHuggingFace w prompt imageBase64) s =
                if env_truthy (HUGGINGFACE_API_KEY w) then [hf_call w prompt] else []).
  { apply calls_made_app. unfold after. rewrite generateWithHuggingFace_run.
    simpl. apply calls_sent. }
  rewrite HcA, generateWithReplicate_calls. unfold outcome, after.
  rewrite generateWithHuggingFace_run, generateWithReplicate_run. simpl.
  rewrite !files_sent. unfold service_A_outcome, service_B_outcome.
  destruct (env_truthy (HUGGINGFACE_API_KEY w)),
           (env_truthy (REPLICATE_API_TOKEN w)); repeat split.
Qed.

(** Every call [/generate] sends to the first provider carries the
    resolved prompt as its only input and the key as bearer token: no
    field of it depends on the uploaded file.  Every call it sends to the
    second provider carries the token, and the two credentials are never
    sent to the other provider's URL. *)
Theorem generate_call_contents w req s c :
  In c (calls_made (generate w req) s) ->
  (to_service_A c = true /\
   data c = JObj [("inputs", fullPrompt req)] /\
   authorization c = "Bearer " +:+ env_string (HUGGINGFACE_API_KEY w) /\
   env_truthy (HUGGINGFACE_API_KEY w) = true) \/
  (to_service_B c = true /\
   authorization c = "Token " +:+ env_string (REPLICATE_API_TOKEN w) /\
   env_truthy (REPLICATE_API_TOKEN w) = true).
Proof.
  rewrite (calls_made_app _ _ _ (generate_calls_eq w req s)).
  destruct (file req) as [f|]; [|intros []].
  destruct (takes_A_first _); [|intros []].
  intros Hin. apply in_app_or in Hin as [Hin|Hin].
  - destruct (env_truthy (HUGGINGFACE_API_KEY w)); simpl in Hin; [|tauto].
    destruct Hin as [<-|[]]. left. repeat split.
  - destruct (env_truthy (REPLICATE_API_TOKEN w));
      [|rewrite andb_false_r in Hin; destruct Hin].
    destruct (fallback_entered w req); simpl in Hin; [|tauto].
    destruct Hin as [<-|[]]. right. repeat split.
Qed.

Lemma generate_call_contents_witness :
  let w := Sample.world (Some "hf_k") (Some "r8_t") (Rejected Sample.down)
                        (Responded Sample.descriptor) in
  let req := Sample.upload_request (Some Sample.dress) [] in
  let c := hf_call w (JStr DEFAULT_PROMPT) in
  In c (calls_made (generate w req) Sample.sys0) /\
  authorization c = "Bearer hf_k".
Proof.
  intros w req c.
  assert (Hin : In c (calls_made (generate w req) Sample.sys0))
    by (left; reflexivity).
  split; [exact Hin|].
  destruct (generate_call_contents w req Sample.sys0 c Hin)
    as [(_ & _ & H & _)|(H & _)]; [exact H | discriminate H].
Defined.

(** ** Health and configuration *)

(** [/health] reports a provider as configured exactly when that
    provider's client would send its call; when it reports neither, the
    handler of [/generate], once entered, makes no outbound call and
    writes no file. *)
Theorem health_agrees_with_clients w timestamp prompt imageBase64 imageUrl s :
  let flags := Js.get "freeAPIs" (json (health w timestamp)) in
  status (health w timestamp) = 200 /\
  Js.get "status" (json (health w timestamp)) = JStr "OK" /\
  (Js.get "huggingFace" flags = JBool true <->
   calls_made (generateWithHuggingFace w prompt imageBase64) s <> []) /\
  (Js.get "replicate" flags = JBool true <->
   calls_made (generateWithReplicate w prompt imageUrl) s <> []) /\
  (Js.get "huggingFace" flags = JBool false ->
   Js.get "replicate" flags = JBool false ->
   forall req, after (generate w req) s = s).
Proof.
  intros flags.
  assert (HcA : calls_made (generateWithHuggingFace w prompt imageBase64) s =
                if env_truthy (HUGGINGFACE_API_KEY w) then [hf_call w prompt] else []).
  { apply calls_made_app. unfold after. rewrite generateWithHuggingFace_run.
    simpl. apply calls_sent. }
  rewrite HcA, generateWithReplicate_calls. subst flags. simpl.
  split; [reflexivity|]. split; [reflexivity|]. split; [|split].
  - destruct (env_truthy (HUGGINGFACE_API_KEY w)); split;
      intros H; (reflexivity || discriminate || congruence).
  - destruct (env_truthy (REPLICATE_API_TOKEN w)); split;
      intros H; (reflexivity || discriminate || congruence).
  - intros [= HA] [= HB] req. by apply unconfigured_generate_is_local.
Qed.

(** ** Upload and the uploaded image's URL *)

(** The handler of [/upload] answers 400 when there is no file and 200
    otherwise; the [url] it returns for a stored file is the URL a 200
    answer of [/generate] returns as [uploadedImage] for the same file,
    and the URL the second provider is sent as [garm_img]. *)
Theorem upload_url_is_generate_url w req s :
  (file req = None ->
   respond (post_upload req) s =
   Some (mkResponse 400 (JObj [("error", JStr "No file uploaded")]))) /\
  (forall f,
     file req = Some f ->
     exists r,
       respond (post_upload req) s = Some r /\
       status r = 200 /\
       Js.get "path" (Js.get "file" (json r)) = JStr (path f) /\
       Js.get "url" (Js.get "file" (json r)) = JStr (uploadedImageUrl req f) /\
       (forall r', respond (generate w req) s = Some r' -> status r' = 200 ->
                   Js.get "uploadedImage" (json r') = Js.get "url" (Js.get "file" (json r))) /\
       (forall c, In c (calls_made (generate w req) s) -> to_service_B c = true ->
                  input_field "garm_img" c = Js.get "url" (Js.get "file" (json r)))).
Proof.
  unfold post_upload, respond. cbv [try_catch mret M_ret].
  destruct (file req) as [f|] eqn:Hf; simpl.
  - split; [discriminate|].
    intros f' [= <-]. eexists. split; [reflexivity|]. simpl.
    repeat split.
    + intros r'. rewrite generate_run, Hf. unfold fallback_outcome.
      destruct (takes_A_first _); cbv zeta;
        [destruct (service_A_outcome w _); [destruct (disk_error w _)|];
         destruct (env_truthy (REPLICATE_API_TOKEN w));
         try destruct (replicate_api w _)|];
        intros [= <-] H200; (reflexivity || discriminate).
    + intros c Hin HB.
      destruct (generate_calls w req s c Hin) as [->|(f' & Hf' & _ & ->)].
      * discriminate HB.
      * rewrite Hf in Hf'. by injection Hf' as <-.
  - split; [reflexivity|]. discriminate.
Qed.

Lemma upload_url_is_generate_url_witness :
  let w := Sample.world (Some "hf_k") None (Responded Sample.png1)
                        (Rejected Sample.down) in
  let req := Sample.upload_request (Some Sample.dress) [] in
  file req = Some Sample.dress /\
  exists r,
    respond (post_upload req) Sample.sys0 = Some r /\
    Js.get "url" (Js.get "file" (json r)) =
    JStr "http://localhost:3000/uploads/image-1730537999000-482911377.png".
Proof.
  intros w req. split; [reflexivity|].
  destruct (proj2 (upload_url_is_generate_url w req Sample.sys0)
              Sample.dress eq_refl) as (r & Hr & _ & _ & Hurl & _).
  exists r. split; [exact Hr | exact Hurl].
Defined.

(** ** The two servers *)

(** The handlers of the 1.0.0 server answer a request without a file as
    those of the 2.0.0 server do, on both routes; for a request with a
    file the 1.0.0 [/generate] reports 'processing', never 'completed',
    with the same [uploadedImage] URL; and every field of the file object
    the 1.0.0 [/upload] returns has the same value in the 2.0.0 answer,
    which adds [url]. *)
Theorem servers_agree_on_uploads w req s :
  (file req = None ->
   respond (V1.generate req) s = respond (generate w req) s /\
   respond (V1.post_upload req) s = respond (post_upload req) s) /\
  (forall f,
     file req = Some f ->
     exists r1 u1 u2,
       respond (V1.generate req) s = Some r1 /\
       status r1 = 200 /\
       Js.get "status" (json r1) = JStr "processing" /\
       Js.get "uploadedImage" (json r1) = JStr (uploadedImageUrl req f) /\
       (forall r2, respond (generate w req) s = Some r2 -> status r2 = 200 ->
                   Js.get "uploadedImage" (json r2) = Js.get "uploadedImage" (json r1)) /\
       respond (V1.post_upload req) s = Some u1 /\
       respond (post_upload req) s = Some u2 /\
       status u1 = status u2 /\
       forall k, k <> "url" ->
                 Js.get k (Js.get "file" (json u2)) = Js.get k (Js.get "file" (json u1))).
Proof.
  unfold V1.generate, V1.post_upload, post_upload, respond.
  rewrite generate_run. cbv [try_catch mret M_ret].
  destruct (file req) as [f|]; simpl.
  - split; [discriminate|].
    intros f' [= <-]. do 3 eexists.
    split; [reflexivity|]. split; [reflexivity|]. split; [reflexivity|].
    split; [reflexivity|]. split; [|repeat split].
    + intros r2. unfold fallback_outcome.
      destruct (takes_A_first _); cbv zeta;
        [destruct (service_A_outcome w _); [destruct (disk_error w _)|];
         destruct (env_truthy (REPLICATE_API_TOKEN w));
         try destruct (replicate_api w _)|];
        intros [= <-] H200; (reflexivity || discriminate).
    + intros k Hk. simpl.
      destruct (String.eqb k "filename"); [reflexivity|].
      destruct (String.eqb k "path"); [reflexivity|].
      destruct (String.eqb k "size"); [reflexivity|].
      destruct (String.eqb k "mimetype"); [reflexivity|].
      destruct (String.eqb k "url") eqn:E; [|reflexivity].
      by apply String.eqb_eq in E.
  - split; [by split|]. discriminate.
Qed.

(** ** Start-up directories *)

Lemma ensure_directory_union existing dir :
  ensure_directory existing dir = {[dir]} ∪ existing.
Proof.
  unfold ensure_directory. destruct (decide (dir ∈ existing)); [|reflexivity].
  apply set_eq. intros x. rewrite elem_of_union, elem_of_singleton.
  split; [tauto | by intros [->|?]].
Qed.

Lemma ensure_directories_union dirs existing :
  ensure_directories dirs existing = list_to_set dirs ∪ existing.
Proof.
  unfold ensure_directories. revert existing.
  induction dirs as [|d dirs IH]; intros existing; simpl.
  - by rewrite (left_id_L ∅ (∪)).
  - by rewrite IH, ensure_directory_union,
      (assoc_L (∪)), (comm_L (∪) (list_to_set dirs)).
Qed.

(** After start-up every listed directory exists and every path that
    existed still does, nothing else is created, a second start-up changes
    nothing, and the 1.0.0 server started after the 2.0.0 server finds its
    directories in place. *)
Theorem startup_directories existing :
  (forall p, p ∈ ensure_directories directories existing <->
             p ∈ directories \/ p ∈ existing) /\
  ensure_directories directories (ensure_directories directories existing)
    = ensure_directories directories existing /\
  ensure_directories V1.directories (ensure_directories directories existing)
    = ensure_directories directories existing.
Proof.
  rewrite !ensure_directories_union. split; [|split].
  - intros p. rewrite elem_of_union, elem_of_list_to_set. reflexivity.
  - by rewrite (assoc_L (∪)), (idemp_L (∪)).
  - apply set_eq. intros p.
    rewrite !elem_of_union, !elem_of_list_to_set.
    unfold V1.directories, directories. rewrite !elem_of_cons, !elem_of_nil.
    tauto.
Qed.

(** * Further properties of the upload intake *)

(** ** Letter case *)

Lemma lower_char_slash c :
  Ascii.eqb (Str.lower_char c) Path.CHAR_FORWARD_SLASH
  = Ascii.eqb c Path.CHAR_FORWARD_SLASH.
Proof. by destruct c as [[] [] [] [] [] [] [] []]. Qed.

Lemma lower_char_dot c :
  Ascii.eqb (Str.lower_char c) Path.CHAR_DOT = Ascii.eqb c Path.CHAR_DOT.
Proof. by destruct c as [[] [] [] [] [] [] [] []]. Qed.

Lemma extname_loop_lower chars i st :
  Path.extname_loop (map Str.lower_char chars) i st = Path.extname_loop chars i st.
Proof.
  revert i st. induction chars as [|c chars IH]; intros i st; simpl;
    [reflexivity|].
  rewrite lower_char_slash, lower_char_dot.
  destruct (Ascii.eqb c Path.CHAR_FORWARD_SLASH); [|apply IH].
  destruct (negb (Path.matchedSlash st)); [reflexivity | apply IH].
Qed.

Lemma toLowerCase_chars s :
  list_ascii_of_string (Str.toLowerCase s)
  = map Str.lower_char (list_ascii_of_string s).
Proof. induction s as [|c s IH]; simpl; [reflexivity | by rewrite IH]. Qed.

Lemma toLowerCase_length s : String.length (Str.toLowerCase s) = String.length s.
Proof. induction s as [|c s IH]; simpl; [reflexivity | by rewrite IH]. Qed.

Lemma toLowerCase_substring n m s :
  String.substring n m (Str.toLowerCase s)
  = Str.toLowerCase (String.substring n m s).
Proof.
  revert n m. induction s as [|c s IH]; intros n m; simpl.
  - by destruct n, m.
  - destruct n as [|n]; [destruct m as [|m]|]; simpl; [reflexivity| |apply IH].
    by rewrite IH.
Qed.

(** Taking the extension commutes with lower-casing. *)
Lemma extname_toLowerCase s :
  Path.extname (Str.toLowerCase s) = Str.toLowerCase (Path.extname s).
Proof.
  unfold Path.extname.
  rewrite toLowerCase_chars, toLowerCase_length, <- map_rev, extname_loop_lower.
  destruct (_ || _); [reflexivity|]. apply toLowerCase_substring.
Qed.

(** The filter reads the file name up to letter case: two parts whose
    names differ only in case, with the same declared type, get the same
    verdict. *)
Theorem fileFilter_ignores_name_case allowed file file' :
  Str.toLowerCase (originalname file') = Str.toLowerCase (originalname file) ->
  mimetype file' = mimetype file ->
  Upload.fileFilter_with allowed file' = Upload.fileFilter_with allowed file.
Proof.
  intros Hname Hmime. unfold Upload.fileFilter_with.
  by rewrite <- !extname_toLowerCase, Hname, Hmime.
Qed.

Lemma fileFilter_ignores_name_case_witness :
  let file := {| fieldname := "image"; originalname := "dress.png";
                 mimetype := "image/png" |} in
  let file' := {| fieldname := "image"; originalname := "DRESS.Png";
                  mimetype := "image/png" |} in
  Str.toLowerCase (originalname file') = Str.toLowerCase (originalname file) /\
  Upload.fileFilter file' = Upload.fileFilter file.
Proof.
  intros file file'. split; [reflexivity|].
  exact (fileFilter_ignores_name_case Upload.allowedTypes file file'
           eq_refl eq_refl).
Defined.

(** ** The extension of a path *)

Section Extension.
Local Open Scope list_scope.

Lemma loop_skip_slashes k r i :
  Path.extname_loop (repeat "/"%char k ++ r) i Path.scan0
  = Path.extname_loop r (i - Z.of_nat k) Path.scan0.
Proof.
  revert i. induction k as [|k IH]; intros i; simpl.
  - f_equal. lia.
  - rewrite IH. f_equal. lia.
Qed.

Lemma loop_plain l r i e :
  dot_free l -> slash_free l -> e <> -1 ->
  Path.extname_loop (l ++ r) i (Path.Scan (-1) 0 e false 0)
  = Path.extname_loop r (i - Z.of_nat (List.length l)) (Path.Scan (-1) 0 e false 0).
Proof.
  intros Hd Hs He. revert i. induction l as [|c l IH]; intros i; simpl.
  - f_equal. lia.
  - inversion Hd as [|? ? Hc Hd']; inversion Hs as [|? ? Hc' Hs']; subst.
    unfold Path.CHAR_FORWARD_SLASH, Path.CHAR_DOT.
    destruct (Ascii.eqb_spec c "/"); [done|].
    destruct (Ascii.eqb_spec c "."); [done|].
    simpl. destruct (Z.eqb_spec e (-1)); [done|]. simpl.
    rewrite IH by assumption. f_equal. lia.
Qed.

Lemma loop_first_plain c l r i :
  c <> "."%char -> c <> "/"%char -> dot_free l -> slash_free l -> 0 <= i ->
  Path.extname_loop (c :: l ++ r) i Path.scan0
  = Path.extname_loop r (i - 1 - Z.of_nat (List.length l))
      (Path.Scan (-1) 0 (i + 1) false 0).
Proof.
  intros Hc Hc' Hd Hs Hi. simpl.
  unfold Path.CHAR_FORWARD_SLASH, Path.CHAR_DOT.
  destruct (Ascii.eqb_spec c "/"); [done|].
  destruct (Ascii.eqb_spec c "."); [done|]. simpl.
  apply loop_plain; try assumption. lia.
Qed.

Lemma loop_after_dot l r i sd e pds :
  slash_free l -> sd <> -1 -> e <> -1 ->
  Path.extname_loop (l ++ r) i (Path.Scan sd 0 e false pds)
  = Path.extname_loop r (i - Z.of_nat (List.length l))
      (Path.Scan sd 0 e false (pds_after l pds)).
Proof.
  intros Hs Hsd He.
  apply Z.eqb_neq in Hsd, He.
  revert i pds. induction l as [|c l IH]; intros i pds.
  - simpl. f_equal. lia.
  - inversion Hs as [|? ? Hc Hs']; subst.
    assert (Hstep :
              Path.extname_loop (l ++ r) (i - 1)
                (Path.Scan sd 0 e false (if Ascii.eqb c "." then 1 else -1))
              = Path.extname_loop r (i - Z.of_nat (List.length (c :: l)))
                  (Path.Scan sd 0 e false (pds_after (c :: l) pds))).
    { rewrite IH by assumption. simpl. f_equal. lia. }
    cbn [Path.extname_loop app]. unfold Path.CHAR_FORWARD_SLASH, Path.CHAR_DOT.
    destruct (Ascii.eqb_spec c "/"); [done|].
    cbn [Path.end_ Path.startDot Path.preDotState Path.startPart Path.matchedSlash].
    rewrite He. cbn [Path.end_ Path.startDot Path.preDotState Path.startPart Path.matchedSlash].
    rewrite Hsd. cbn [negb].
    destruct (Ascii.eqb_spec c ".") as [->|Hne]; [|exact Hstep].
    by destruct (Z.eqb_spec pds 1) as [->|Hp]; cbn [negb].
Qed.

Lemma pds_after_nonzero l pds : l <> [] -> pds_after l pds <> 0.
Proof.
  revert pds. induction l as [|c l IH]; intros pds Hl; [done|]. simpl.
  destruct l as [|c' l]; [|by apply IH].
  simpl. by destruct (Ascii.eqb c ".").
Qed.

Lemma loop_break r i st :
  Path.matchedSlash st = false ->
  Path.extname_loop ("/"%char :: r) i st
  = Path.Scan (Path.startDot st) (i + 1) (Path.end_ st) (Path.matchedSlash st)
              (Path.preDotState st).
Proof. intros H. simpl. by rewrite H. Qed.

Lemma rev_repeat_char (c : ascii) k : rev (repeat c k) = repeat c k.
Proof.
  induction k as [|k IH]; simpl; [reflexivity|].
  rewrite IH. clear IH. induction k as [|k IH]; simpl; [reflexivity|].
  by rewrite IH.
Qed.

Lemma substring_middle (a b c : list ascii) :
  String.substring (List.length a) (List.length b)
    (string_of_list_ascii (a ++ b ++ c)) = string_of_list_ascii b.
Proof.
  induction a as [|x a IH]; simpl; [|exact IH].
  induction b as [|y b IHb]; simpl.
  - by destruct (string_of_list_ascii c).
  - by rewrite IHb.
Qed.

Lemma string_of_list_length l :
  String.length (string_of_list_ascii l) = List.length l.
Proof. induction l as [|c l IH]; simpl; [reflexivity | by rewrite IH]. Qed.

Lemma rev_parts (pre head x : list ascii) (k : nat) :
  rev (pre ++ head ++ "."%char :: x ++ repeat "/"%char k)
  = repeat "/"%char k ++ rev x ++ "."%char :: rev head ++ rev pre.
Proof.
  rewrite !rev_app_distr.
  change (rev ("."%char :: x ++ repeat "/"%char k))
    with (rev (x ++ repeat "/"%char k) ++ ["."%char]).
  rewrite rev_app_distr, rev_repeat_char, <- !app_assoc. reflexivity.
Qed.

(** The extension of a path whose last component, trailing slashes
    apart, is [head ++ "." ++ x] with no dot in [x]. *)
Lemma extname_of_parts (pre head x : list ascii) (k : nat) :
  (pre = [] \/ exists p, pre = p ++ ["/"%char]) ->
  slash_free head -> dot_free x -> slash_free x ->
  Path.extname (string_of_list_ascii (pre ++ head ++ "."%char :: x ++ repeat "/"%char k))
  = if decide (head = [] \/ (head = ["."%char] /\ x = []))
    then "" else string_of_list_ascii ("."%char :: x).
Proof.
  intros Hpre Hhead Hxd Hxs. unfold Path.extname.
  rewrite list_ascii_of_string_of_list_ascii, string_of_list_length.
  rewrite rev_parts, loop_skip_slashes.
  rewrite !length_app. simpl List.length. rewrite !length_app, repeat_length.
  set (n := (List.length pre + (List.length head + S (List.length x + k)))%nat).
  set (sd := Z.of_nat (List.length pre + List.length head)).
  set (e := Z.of_nat (List.length pre + List.length head + 1 + List.length x)).
  assert (Hscan :
    Path.extname_loop (rev x ++ "."%char :: rev head ++ rev pre)
      (Z.of_nat n - 1 - Z.of_nat k) Path.scan0
    = Path.Scan sd (Z.of_nat (List.length pre)) e false (pds_after (rev head) 0)).
  { assert (Hdot : forall i, i = sd ->
       Path.extname_loop ("."%char :: rev head ++ rev pre) i
         (if decide (x = []) then Path.scan0 else Path.Scan (-1) 0 e false 0)
       = Path.Scan sd (Z.of_nat (List.length pre)) e false (pds_after (rev head) 0)).
    { intros i ->.
      assert (Hafter :
        Path.extname_loop (rev head ++ rev pre) (sd - 1) (Path.Scan sd 0 e false 0)
        = Path.Scan sd (Z.of_nat (List.length pre)) e false (pds_after (rev head) 0)).
      { rewrite loop_after_dot; [| |subst sd; lia|subst e; lia].
        2:{ unfold slash_free. by apply Forall_rev. }
        rewrite length_rev.
        destruct Hpre as [->|[p ->]]; simpl.
        - reflexivity.
        - rewrite rev_app_distr. simpl.
          f_equal. subst sd. rewrite length_app. simpl. lia. }
      destruct (decide (x = [])) as [->|Hx].
      - simpl. unfold Path.CHAR_DOT. simpl.
        assert (E1 : (sd + 1 =? -1) = false) by (apply Z.eqb_neq; subst sd; lia).
        replace (sd + 1) with e by (subst sd e; simpl; lia).
        rewrite <- Hafter. reflexivity.
      - simpl. unfold Path.CHAR_DOT. simpl.
        assert (E1 : (e =? -1) = false) by (apply Z.eqb_neq; subst e; lia).
        rewrite E1. simpl. exact Hafter. }
    destruct (rev x) as [|c l] eqn:Erev.
    - assert (x = []) as -> by (apply (f_equal (@rev ascii)) in Erev;
                                 by rewrite rev_involutive in Erev).
      simpl app. rewrite <- (Hdot (Z.of_nat n - 1 - Z.of_nat k)).
      + reflexivity.
      + subst n sd. simpl. lia.
    - assert (Hx : x <> []) by (intros ->; discriminate).
      assert (Hd : dot_free (c :: l))
        by (rewrite <- Erev; unfold dot_free; by apply Forall_rev).
      assert (Hs : slash_free (c :: l))
        by (rewrite <- Erev; unfold slash_free; by apply Forall_rev).
      assert (Hlen : List.length x = S (List.length l))
        by (rewrite <- (length_rev x), Erev; reflexivity).
      inversion Hd; inversion Hs; subst.
      change ((c :: l) ++ "."%char :: rev head ++ rev pre)
        with (c :: l ++ "."%char :: rev head ++ rev pre).
      rewrite loop_first_plain; try assumption; [|subst n; lia].
      replace (Z.of_nat n - 1 - Z.of_nat k + 1) with e by (subst n e; lia).
      specialize (Hdot (Z.of_nat n - 1 - Z.of_nat k - 1 - Z.of_nat (List.length l))).
      destruct (decide (x = [])); [done|]. apply Hdot. subst n sd. lia. }
  rewrite Hscan. clear Hscan. simpl.
  assert (Esd : (sd =? -1) = false) by (apply Z.eqb_neq; subst sd; lia).
  assert (Ee : (e =? -1) = false) by (apply Z.eqb_neq; subst e; lia).
  rewrite Esd, Ee. simpl.
  destruct (decide (head = [] \/ head = ["."%char] /\ x = [])) as [[->|[-> ->]]|Hno].
  - reflexivity.
  - simpl. subst sd e. simpl.
    replace (Z.of_nat (List.length pre + 1) =? Z.of_nat (List.length pre + 1 + 1 + 0) - 1)
      with true by (symmetry; apply Z.eqb_eq; lia).
    replace (Z.of_nat (List.length pre + 1) =? Z.of_nat (List.length pre) + 1)
      with true by (symmetry; apply Z.eqb_eq; lia).
    reflexivity.
  - assert (Hne : head <> []) by tauto.
    assert (H0 : (pds_after (rev head) 0 =? 0) = false).
    { apply Z.eqb_neq, pds_after_nonzero. intros E.
      apply (f_equal (@rev ascii)) in E. rewrite rev_involutive in E. done. }
    rewrite H0. simpl.
    assert (Hcond : ((pds_after (rev head) 0 =? 1) && (sd =? e - 1)
                     && (sd =? Z.of_nat (List.length pre) + 1)) = false).
    { destruct (pds_after (rev head) 0 =? 1) eqn:E1; [|reflexivity].
      destruct (Z.eqb_spec sd (e - 1)) as [E2|]; [|reflexivity].
      destruct (Z.eqb_spec sd (Z.of_nat (List.length pre) + 1)) as [E3|];
        [|reflexivity].
      exfalso. apply Hno. right.
      assert (Hx : x = []) by (destruct x; [reflexivity | subst sd e; simpl in E2; lia]).
      destruct head as [|c [|c' head]]; [done| |subst sd; simpl in E3; lia].
      simpl in E1. destruct (Ascii.eqb_spec c "."); [by subst | discriminate]. }
    rewrite Hcond. unfold Str.slice.
    replace (Z.to_nat sd) with (List.length (pre ++ head))
      by (subst sd; rewrite length_app; lia).
    replace (Z.to_nat (e - sd)) with (List.length ("."%char :: x))
      by (subst sd e; simpl; lia).
    rewrite (app_assoc pre head).
    change ("."%char :: x ++ repeat "/"%char k)
      with (("."%char :: x) ++ repeat "/"%char k).
    apply substring_middle.
Qed.

Lemma extname_only_slashes k :
  Path.extname (string_of_list_ascii (repeat "/"%char k)) = "".
Proof.
  unfold Path.extname.
  rewrite list_ascii_of_string_of_list_ascii, rev_repeat_char.
  rewrite <- (app_nil_r (repeat _ k)), loop_skip_slashes. reflexivity.
Qed.

(** The extension of a path whose last component has no dot is empty. *)
Lemma extname_no_ext (pre comp : list ascii) (k : nat) :
  (pre = [] \/ exists p, pre = p ++ ["/"%char]) ->
  comp <> [] -> slash_free comp -> dot_free comp ->
  Path.extname (string_of_list_ascii (pre ++ comp ++ repeat "/"%char k)) = "".
Proof.
  intros Hpre Hne Hs Hd. unfold Path.extname.
  rewrite list_ascii_of_string_of_list_ascii, string_of_list_length.
  rewrite !rev_app_distr, rev_repeat_char, <- app_assoc, loop_skip_slashes.
  destruct (rev comp) as [|c l] eqn:Erev.
  { apply (f_equal (@rev ascii)) in Erev. rewrite rev_involutive in Erev. done. }
  assert (Hd' : dot_free (c :: l))
    by (rewrite <- Erev; unfold dot_free; by apply Forall_rev).
  assert (Hs' : slash_free (c :: l))
    by (rewrite <- Erev; unfold slash_free; by apply Forall_rev).
  inversion Hd'; inversion Hs'; subst.
  change ((c :: l) ++ rev pre) with (c :: l ++ rev pre).
  rewrite loop_first_plain; try assumption.
  - destruct Hpre as [->|[p ->]]; [reflexivity|].
    rewrite rev_app_distr. reflexivity.
  - assert (List.length comp = S (List.length l))
      by (rewrite <- (length_rev comp), Erev; reflexivity).
    rewrite !length_app, repeat_length. lia.
Qed.

Lemma split_trailing_slashes (l : list ascii) :
  exists body k,
    l = body ++ repeat "/"%char k /\
    (body = [] \/ exists b c, body = b ++ [c] /\ c <> "/"%char).
Proof.
  induction l as [|c l IH] using rev_ind.
  - exists [], 0%nat. auto.
  - destruct (decide (c = "/"%char)) as [->|Hc].
    + destruct IH as (body & k & -> & Hbody).
      exists body, (S k). split; [|exact Hbody].
      rewrite <- app_assoc. f_equal. simpl. symmetry. apply repeat_cons.
    + exists (l ++ [c]), 0%nat. rewrite app_nil_r.
      split; [reflexivity|]. right. by exists l, c.
Qed.

Lemma split_last_component (body : list ascii) :
  exists pre comp,
    body = pre ++ comp /\ slash_free comp /\
    (pre = [] \/ exists p, pre = p ++ ["/"%char]).
Proof.
  induction body as [|c body IH] using rev_ind.
  - exists [], []. repeat split; [constructor | auto].
  - destruct (decide (c = "/"%char)) as [->|Hc].
    + exists (body ++ ["/"%char]), []. rewrite app_nil_r.
      repeat split; [constructor | right; by exists body].
    + destruct IH as (pre & comp & -> & Hs & Hpre).
      exists pre, (comp ++ [c]). rewrite <- app_assoc.
      repeat split; [|exact Hpre].
      apply Forall_app. split; [exact Hs | by repeat constructor].
Qed.

Lemma split_last_dot (comp : list ascii) :
  dot_free comp \/
  exists head x, comp = head ++ "."%char :: x /\ dot_free x.
Proof.
  induction comp as [|c comp IH]; [left; constructor|].
  destruct IH as [Hd|(head & x & -> & Hx)].
  - destruct (decide (c = "."%char)) as [->|Hc].
    + right. by exists [], comp.
    + left. by constructor.
  - right. by exists (c :: head), x.
Qed.

(** The extension of any path is empty, or a dot followed by characters
    among which there is neither a dot nor a slash. *)
Lemma extname_shape (s : string) :
  Path.extname s = "" \/
  exists x, Path.extname s = string_of_list_ascii ("."%char :: x) /\
            dot_free x /\ slash_free x.
Proof.
  rewrite <- (string_of_list_ascii_of_string s).
  destruct (split_trailing_slashes (list_ascii_of_string s))
    as (body & k & -> & [->|(b & c & Hbody & Hc)]).
  { left. apply extname_only_slashes. }
  destruct (split_last_component body) as (pre & comp & Hsplit & Hs & Hpre).
  assert (Hcomp : comp <> []).
  { intros ->. rewrite app_nil_r in Hsplit. rewrite Hsplit in Hbody.
    destruct Hpre as [->|[p ->]].
    - by destruct b.
    - apply app_inj_tail in Hbody as [_ <-]. done. }
  rewrite Hsplit, <- app_assoc.
  destruct (split_last_dot comp) as [Hd|(head & x & -> & Hx)].
  { left. by apply extname_no_ext. }
  apply Forall_app in Hs as [Hhead Hxs]. inversion Hxs; subst.
  rewrite <- !app_assoc. change (("."%char :: x) ++ repeat "/"%char k)
    with ("."%char :: x ++ repeat "/"%char k).
  rewrite extname_of_parts by assumption.
  destruct (decide _); [by left|]. right. by exists x.
Qed.

(** ** Decimal numerals *)

Lemma chars_app (a b : string) :
  list_ascii_of_string (a +:+ b) = list_ascii_of_string a ++ list_ascii_of_string b.
Proof. induction a as [|c a IH]; simpl; [reflexivity | by rewrite IH]. Qed.

Lemma string_app_assoc (a b c : string) : (a +:+ b) +:+ c = a +:+ b +:+ c.
Proof.
  induction a as [|x a IH]; [reflexivity|].
  change (String x ((a +:+ b) +:+ c) = String x (a +:+ b +:+ c)). by f_equal.
Qed.

Lemma pretty_N_go_app (x : N) (s : string) :
  pretty_N_go x s = pretty_N_go x "" +:+ s.
Proof.
  revert s. induction (N.lt_wf_0 x) as [x _ IH]; intros s.
  destruct (decide (x = 0)%N) as [->|Hx].
  - by rewrite !pretty_N_go_0.
  - assert (0 < x)%N by lia.
    rewrite !(pretty_N_go_step x) by assumption.
    assert (Hlt : (x `div` 10 < x)%N) by (by apply N.div_lt).
    rewrite (IH _ Hlt (String _ s)), (IH _ Hlt (String _ "")).
    by rewrite string_app_assoc.
Qed.

Lemma pretty_N_char_digit (x : N) : is_digit (pretty_N_char x) = true.
Proof. unfold pretty_N_char. by repeat case_match. Qed.

Lemma pretty_N_go_digits (x : N) :
  Forall (fun c => is_digit c = true) (list_ascii_of_string (pretty_N_go x "")).
Proof.
  induction (N.lt_wf_0 x) as [x _ IH].
  destruct (decide (x = 0)%N) as [->|Hx].
  - rewrite pretty_N_go_0. constructor.
  - assert (0 < x)%N by lia.
    rewrite pretty_N_go_step, pretty_N_go_app, chars_app by assumption.
    apply Forall_app. split; [apply IH; by apply N.div_lt|].
    repeat constructor. apply pretty_N_char_digit.
Qed.

(** The numeral of a natural number is a non-empty string of digits. *)
Lemma pretty_N_digits (x : N) :
  Forall (fun c => is_digit c = true) (list_ascii_of_string (pretty x)) /\
  exists body d, list_ascii_of_string (pretty x) = body ++ [d].
Proof.
  unfold pretty, pretty_N. destruct (decide (x = 0)%N) as [->|Hx].
  - split; [by repeat constructor | by exists [], "0"%char].
  - split; [apply pretty_N_go_digits|].
    assert (0 < x)%N by lia.
    rewrite pretty_N_go_step, pretty_N_go_app, chars_app by assumption.
    eauto.
Qed.

Lemma digit_plain (c : ascii) :
  is_digit c = true -> c <> "."%char /\ c <> "/"%char /\ c <> "-"%char.
Proof. destruct c as [[] [] [] [] [] [] [] []]; by compute. Qed.

(** The numeral of an integer ends with a digit and holds digits and at
    most a leading minus sign; without the sign when the integer is not
    negative. *)
Lemma pretty_Z_chars (z : Z) :
  (exists body d, list_ascii_of_string (pretty z) = body ++ [d] /\
                  is_digit d = true) /\
  dot_free (list_ascii_of_string (pretty z)) /\
  slash_free (list_ascii_of_string (pretty z)) /\
  (0 <= z -> dash_free (list_ascii_of_string (pretty z))).
Proof.
  assert (HN : forall x : N,
    (exists body d, list_ascii_of_string (pretty x) = body ++ [d] /\
                    is_digit d = true) /\
    dot_free (list_ascii_of_string (pretty x)) /\
    slash_free (list_ascii_of_string (pretty x)) /\
    dash_free (list_ascii_of_string (pretty x))).
  { intros x. destruct (pretty_N_digits x) as [Hall (body & d & E)].
    split.
    - exists body, d. split; [exact E|]. rewrite E in Hall.
      apply Forall_app in Hall as [_ Hd]. by inversion Hd.
    - repeat split; eapply Forall_impl; try exact Hall;
        intros c Hc; by destruct (digit_plain c Hc) as (? & ? & ?). }
  destruct z as [|p|p].
  - split; [by exists [], "0"%char|].
    repeat split; try intros _; by repeat constructor.
  - destruct (HN (N.pos p)) as (Hlast & Hd & Hs & Hm). by repeat split.
  - destruct (HN (N.pos p)) as ((body & d & E & Hdig) & Hd & Hs & Hm).
    change (pretty (Z.neg p)) with ("-" +:+ pretty (N.pos p)).
    rewrite chars_app. change (list_ascii_of_string "-") with ["-"%char].
    split; [|split; [|split]].
    + exists ("-"%char :: body), d. by rewrite E.
    + by constructor.
    + by constructor.
    + lia.
Qed.

(** ** Names without an extension *)

Lemma loop_keeps_no_dot l i st :
  dot_free l -> Path.startDot st = -1 ->
  Path.startDot (Path.extname_loop l i st) = -1.
Proof.
  intros Hd. revert i st. induction Hd as [|c l Hc Hd IH]; intros i st Hst;
    [exact Hst|].
  simpl. unfold Path.CHAR_FORWARD_SLASH, Path.CHAR_DOT.
  destruct (Ascii.eqb_spec c "/").
  - destruct (negb (Path.matchedSlash st)); [exact Hst | by apply IH].
  - destruct (Ascii.eqb_spec c "."); [done|]. apply IH.
    destruct (Path.end_ st =? -1); simpl; by rewrite Hst.
Qed.

Lemma extname_dot_free (s : string) :
  dot_free (list_ascii_of_string s) -> Path.extname s = "".
Proof.
  intros Hd. unfold Path.extname.
  rewrite loop_keeps_no_dot; [reflexivity| |reflexivity].
  unfold dot_free. by apply Forall_rev.
Qed.

(** A file name without any dot, and a file name that is a dot followed by
    dot-free characters (a hidden file such as [.png]), have no extension,
    so both servers' filters reject them whatever type is declared. *)
Theorem fileFilter_needs_extension (file : FilePart) :
  dot_free (list_ascii_of_string (originalname file)) \/
  (exists x, originalname file = string_of_list_ascii ("."%char :: x) /\
             dot_free x /\ slash_free x) ->
  Path.extname (originalname file) = "" /\
  Upload.fileFilter file = CbErr (new_Error "Only image files are allowed!") /\
  Upload.fileFilter_v1 file = CbErr (new_Error "Only image files are allowed!").
Proof.
  intros H.
  assert (E : Path.extname (originalname file) = "").
  { destruct H as [Hd|(x & -> & Hd & Hs)]; [by apply extname_dot_free|].
    pose proof (extname_of_parts [] [] x 0 (or_introl eq_refl)
                  ltac:(constructor) Hd Hs) as Hparts.
    simpl app in Hparts. rewrite app_nil_r in Hparts. rewrite Hparts.
    destruct (decide _) as [|Hno]; [reflexivity|]. destruct Hno. by left. }
  split; [exact E|].
  unfold Upload.fileFilter, Upload.fileFilter_v1, Upload.fileFilter_with.
  rewrite E. simpl. by rewrite !andb_false_r.
Qed.

Lemma fileFilter_needs_extension_witness :
  let file := {| fieldname := "image"; originalname := ".png";
                 mimetype := "image/png" |} in
  (exists x, originalname file = string_of_list_ascii ("."%char :: x) /\
             dot_free x /\ slash_free x) /\
  Upload.fileFilter file = CbErr (new_Error "Only image files are allowed!").
Proof.
  intros file.
  assert (H : exists x, originalname file = string_of_list_ascii ("."%char :: x) /\
                        dot_free x /\ slash_free x).
  { exists ["p"%char; "n"%char; "g"%char].
    split; [reflexivity|]. split; repeat constructor; discriminate. }
  split; [exact H|].
  exact (proj1 (proj2 (fileFilter_needs_extension file (or_intror H)))).
Defined.

(** ** The two patterns *)

Lemma test_monotone r r' s :
  (forall w, In w (Regex.words r) -> In w (Regex.words r')) ->
  Regex.test r s = true -> Regex.test r' s = true.
Proof.
  intros Hsub. rewrite !test_spec. intros (w & Hw & Hocc). exists w. auto.
Qed.

Lemma test_v2_not_v1 s :
  Regex.test Upload.allowedTypes s = true ->
  Regex.test Upload.allowedTypes_v1 s = false ->
  occurs_in "webp" s.
Proof.
  intros H2 H1. apply test_spec in H2 as (w & Hw & Hocc).
  simpl in Hw. destruct Hw as [<-|[<-|[<-|[<-|[<-|[]]]]]]; try exact Hocc;
    exfalso; apply not_true_iff_false in H1; apply H1, test_spec;
    eexists; (split; [|exact Hocc]); simpl; tauto.
Qed.

(** Whatever the 1.0.0 filter accepts the 2.0.0 filter accepts, and a file
    only the 2.0.0 filter accepts has 'webp' in its declared type or in
    its lower-cased extension. *)
Theorem fileFilter_v1_narrower (file : FilePart) :
  (Upload.fileFilter_v1 file = CbOk true -> Upload.fileFilter file = CbOk true) /\
  (Upload.fileFilter file = CbOk true ->
   Upload.fileFilter_v1 file <> CbOk true ->
   occurs_in "webp" (mimetype file) \/
   occurs_in "webp" (Str.toLowerCase (Path.extname (originalname file)))).
Proof.
  unfold Upload.fileFilter, Upload.fileFilter_v1, Upload.fileFilter_with.
  assert (Hsub : forall w, In w (Regex.words Upload.allowedTypes_v1) ->
                           In w (Regex.words Upload.allowedTypes))
    by (simpl; tauto).
  destruct (Regex.test Upload.allowedTypes_v1 (mimetype file)) eqn:M1,
           (Regex.test Upload.allowedTypes_v1 (Str.toLowerCase _)) eqn:E1; simpl.
  - rewrite (test_monotone _ _ _ Hsub M1), (test_monotone _ _ _ Hsub E1).
    split; [reflexivity | done].
  - split; [discriminate|].
    destruct (Regex.test Upload.allowedTypes (Str.toLowerCase _)) eqn:E2;
      [|rewrite andb_false_r; discriminate].
    intros _ _. right. by apply test_v2_not_v1.
  - split; [discriminate|].
    destruct (Regex.test Upload.allowedTypes (mimetype file)) eqn:M2;
      [|discriminate].
    intros _ _. left. by apply test_v2_not_v1.
  - split; [discriminate|].
    destruct (Regex.test Upload.allowedTypes (mimetype file)) eqn:M2;
      [|discriminate].
    intros _ _. left. by apply test_v2_not_v1.
Qed.

Lemma fileFilter_v1_narrower_witness :
  let file := {| fieldname := "image"; originalname := "dress.jpeg";
                 mimetype := "image/jpeg" |} in
  Upload.fileFilter_v1 file = CbOk true /\ Upload.fileFilter file = CbOk true.
Proof.
  intros file. split; [reflexivity|].
  exact (proj1 (fileFilter_v1_narrower file) eq_refl).
Defined.

(** ** Storage names *)

Lemma split_at_dash (a b x y : string) :
  dash_free (list_ascii_of_string a) -> dash_free (list_ascii_of_string b) ->
  a +:+ String "-" x = b +:+ String "-" y -> a = b /\ x = y.
Proof.
  revert b. induction a as [|c a IH]; intros [|c' b] Ha Hb E.
  - by injection E as ->.
  - change (String "-" x = String c' (b +:+ String "-" y)) in E.
    injection E as <- _. by inversion Hb.
  - change (String c (a +:+ String "-" x) = String "-" y) in E.
    injection E as -> _. by inversion Ha.
  - change (String c (a +:+ String "-" x) = String c' (b +:+ String "-" y)) in E.
    injection E as -> E. inversion Ha; inversion Hb; subst.
    destruct (IH b) as [-> ->]; auto.
Qed.

(** Two stored uploads of one file part get the same name only if both the
    clock reading and the random number are the same. *)
Theorem storage_filename_injective now1 rnd1 now2 rnd2 file :
  0 <= now1 -> 0 <= now2 ->
  Upload.storage_filename now1 rnd1 file = Upload.storage_filename now2 rnd2 file ->
  now1 = now2 /\ rnd1 = rnd2.
Proof.
  intros H1 H2 E. unfold Upload.storage_filename in E.
  do 2 apply String.app_inj in E. apply string_app_inv_tail in E.
  change (pretty now1 +:+ String "-" (pretty rnd1)
          = pretty now2 +:+ String "-" (pretty rnd2)) in E.
  apply split_at_dash in E as [En Er].
  - split; by apply (inj pretty).
  - by apply pretty_Z_chars.
  - by apply pretty_Z_chars.
Qed.

Lemma storage_filename_injective_witness :
  (0 <= 1730537999000 /\ 0 <= 1730537999000 /\
   Upload.storage_filename 1730537999000 482911377
     {| fieldname := "image"; originalname := "dress.png"; mimetype := "image/png" |}
   = "image-1730537999000-482911377.png") /\
  1730537999000 = 1730537999000 /\ 482911377 = 482911377.
Proof.
  split; [repeat split; lia|].
  apply (storage_filename_injective 1730537999000 482911377 1730537999000 482911377
           {| fieldname := "image"; originalname := "dress.png";
              mimetype := "image/png" |});
    [lia | lia | reflexivity].
Defined.

Lemma last_component_of_snoc (l : list ascii) (d : ascii) :
  d <> "/"%char ->
  exists pre comp,
    l ++ [d] = pre ++ comp ++ [d] /\ slash_free (comp ++ [d]) /\
    (pre = [] \/ exists p, pre = p ++ ["/"%char]).
Proof.
  intros Hd. destruct (split_last_component (l ++ [d]))
    as (pre & comp & E & Hs & Hpre).
  destruct comp as [|c comp] using rev_ind.
  - rewrite app_nil_r in E. destruct Hpre as [->|[p ->]].
    + by destruct l.
    + apply app_inj_tail in E as [_ ->]. done.
  - clear IHcomp. rewrite app_assoc in E.
    apply app_inj_tail in E as [E1 <-].
    exists pre, comp. split; [|by split].
    by rewrite E1, app_assoc.
Qed.

(** The stored name keeps the original extension: always when the
    original name has one, and also when it has none provided the field
    name has no dot (the routes use the field [image]). *)
Theorem storage_filename_keeps_extension now rnd file :
  Path.extname (originalname file) <> "" \/
  dot_free (list_ascii_of_string (fieldname file)) ->
  Path.extname (Upload.storage_filename now rnd file)
  = Path.extname (originalname file).
Proof.
  intros H. unfold Upload.storage_filename.
  destruct (pretty_Z_chars rnd) as ((body & d & Ernd & Hdig) & Hrd & Hrs & _).
  destruct (pretty_Z_chars now) as (_ & Hnd & _ & _).
  destruct (digit_plain d Hdig) as (Hd_dot & Hd_slash & _).
  set (E := Path.extname (originalname file)) in *.
  set (P := list_ascii_of_string (fieldname file) ++
            "-"%char :: list_ascii_of_string (pretty now) ++ "-"%char :: body).
  assert (Hchars :
    list_ascii_of_string
      (fieldname file +:+ "-" +:+ (pretty now +:+ "-" +:+ pretty rnd) +:+ E)
    = (P ++ [d]) ++ list_ascii_of_string E).
  { rewrite !chars_app, Ernd. subst P. simpl. rewrite <- !app_assoc. simpl.
    by rewrite <- !app_assoc. }
  rewrite <- (string_of_list_ascii_of_string (_ +:+ _)), Hchars.
  destruct (last_component_of_snoc P d Hd_slash) as (pre & comp & EP & Hs & Hpre).
  rewrite EP.
  destruct (extname_shape (originalname file)) as [HE|(x & HE & Hxd & Hxs)];
    fold E in HE.
  - destruct H as [H|Hf]; [done|]. rewrite HE. simpl. rewrite app_nil_r.
    assert (Hall : dot_free (P ++ [d])).
    { subst P. rewrite Ernd in Hrd. apply Forall_app in Hrd as [Hb Hd'].
      apply Forall_app. split; [|exact Hd'].
      apply Forall_app. split; [exact Hf|]. constructor; [done|].
      apply Forall_app. split; [exact Hnd|]. by constructor. }
    rewrite EP in Hall. apply Forall_app in Hall as [_ Hall].
    pose proof (extname_no_ext pre (comp ++ [d]) 0 Hpre) as Hx.
    simpl repeat in Hx. rewrite app_nil_r in Hx. apply Hx; try assumption.
    by destruct comp.
  - rewrite HE, list_ascii_of_string_of_list_ascii.
    pose proof (extname_of_parts pre (comp ++ [d]) x 0 Hpre Hs Hxd Hxs) as Hx.
    simpl repeat in Hx. rewrite app_nil_r in Hx.
    rewrite <- app_assoc. rewrite Hx.
    destruct (decide _) as [[Hc|[Hc _]]|]; [| |reflexivity].
    + by destruct comp.
    + destruct comp as [|c [|c' comp]]; simplify_eq/=.
Qed.

Lemma storage_filename_keeps_extension_witness :
  let file := {| fieldname := "image"; originalname := "Summer Dress.JPG";
                 mimetype := "image/jpeg" |} in
  (Path.extname (originalname file) = ".JPG" /\
   Path.extname (originalname file) <> "") /\
  Path.extname (Upload.storage_filename 1730537999000 482911377 file)
  = Path.extname (originalname file).
Proof.
  intros file.
  assert (E : Path.extname (originalname file) = ".JPG") by (vm_compute; reflexivity).
  assert (H : Path.extname (originalname file) <> "") by (rewrite E; discriminate).
  split; [split; [exact E | exact H]|].
  exact (storage_filename_keeps_extension 1730537999000 482911377 file
           (or_introl H)).
Defined.

End Extension.

(** * Sequences of requests *)

(** Two successful calls of [/generate-simple] at different clock readings
    write two different files, and after both calls each file holds its
    own call's image. *)
Theorem distinct_ticks_keep_both_images w1 w2 req1 req2 s d1 d2 :
  now w1 <> now w2 ->
  truthy (Js.get "prompt" (body req1)) = true ->
  truthy (Js.get "prompt" (body req2)) = true ->
  service_A_outcome w1 (Js.get "prompt" (body req1)) = Responded d1 ->
  service_A_outcome w2 (Js.get "prompt" (body req2)) = Responded d2 ->
  disk_error w1 (generated_path w1) = None ->
  disk_error w2 (generated_path w2) = None ->
  let s1 := after (generate_simple w1 req1) s in
  let s2 := after (generate_simple w2 req2) s1 in
  generated_path w1 <> generated_path w2 /\
  files s2 !! generated_path w1 = Some d1 /\
  files s2 !! generated_path w2 = Some d2.
Proof.
  intros Hnow Hp1 Hp2 HA1 HA2 Hd1 Hd2 s1 s2.
  assert (Hne : generated_path w1 <> generated_path w2).
  { unfold generated_path, Path.join. intros E.
    do 2 apply String.app_inj in E. by apply generated_filename_eq_iff in E. }
  split; [exact Hne|]. subst s1 s2.
  rewrite (generate_simple_files_eq w2), HA2, Hd2, Hp2.
  rewrite (generate_simple_files_eq w1), HA1, Hd1, Hp1.
  split.
  - rewrite lookup_insert_ne by congruence. apply lookup_insert_eq.
  - apply lookup_insert_eq.
Qed.

Lemma distinct_ticks_keep_both_images_witness :
  let w1 := {| HUGGINGFACE_API_KEY := Some "hf_k"; REPLICATE_API_TOKEN := None;
               now := 1730538000123;
               huggingface_api := fun _ => Responded Sample.png1;
               replicate_api := fun _ => Rejected Sample.down;
               disk_error := fun _ => None;
               disk_written := fun _ => None |} in
  let w2 := {| HUGGINGFACE_API_KEY := Some "hf_k"; REPLICATE_API_TOKEN := None;
               now := 1730538000124;
               huggingface_api := fun _ => Responded Sample.png2;
               replicate_api := fun _ => Rejected Sample.down;
               disk_error := fun _ => None;
               disk_written := fun _ => None |} in
  let req := Sample.json_request [("prompt", JStr "red sneaker on white background")] in
  let s2 := after (generate_simple w2 req) (after (generate_simple w1 req) Sample.sys0) in
  now w1 <> now w2 /\
  files s2 !! generated_path w1 = Some Sample.png1 /\
  files s2 !! generated_path w2 = Some Sample.png2.
Proof.
  intros w1 w2 req s2.
  assert (Hnow : now w1 <> now w2) by discriminate.
  split; [exact Hnow|].
  exact (proj2 (distinct_ticks_keep_both_images w1 w2 req req Sample.sys0
                  Sample.png1 Sample.png2 Hnow eq_refl eq_refl eq_refl eq_refl
                  eq_refl eq_refl)).
Defined.

Lemma rejected_upload_response_witness :
  let file := {| fieldname := "image"; originalname := "notes.txt";
                 mimetype := "text/plain" |} in
  Upload.fileFilter file = CbErr (new_Error "Only image files are allowed!") /\
  error_middleware (new_Error "Only image files are allowed!") =
  mkResponse 500 (JObj [("error", JStr "Only image files are allowed!")]).
Proof.
  intros file. split; [reflexivity|].
  exact (rejected_upload_response Upload.allowedTypes file
           (new_Error "Only image files are allowed!") eq_refl).
Defined.
